(** * LinkedIn image saver bot: extraction filter, delivery loop, quota gate

    A shallow embedding of [bot.py]: the Supabase helpers
    ([get_or_create_user], [log_usage], [get_today_usage]), the Selenium
    scraper [LinkedInScraper.extract_images] and the Telegram handler
    [handle_url].

    Every call into an external system (Supabase, ChromeDriver, Telegram)
    is answered by an oracle record that says whether the call returns or
    raises; the calls that were made are recorded, in order, in a trace.
    Python exceptions are explicit: a computation yields [Ok v] or
    [Raise e] together with its trace, and [try]/[except]/[finally] are
    combinators on such computations. *)

From Stdlib Require Import ZArith Ascii String List Bool Lia.
From stdpp Require Import base list strings pretty gmap.

Open Scope string_scope.
Open Scope list_scope.

(** ** Python strings

    A [str] is modelled by the bytes of its UTF-8 encoding: an ASCII
    character is one byte, any other character two to four.  Searching
    for a substring and testing a prefix give the same answer on the
    bytes as on the characters.  The built-ins that look at the
    characters themselves ([lower], [strip], [int]) read the string
    character by character, through [chars].  The tables are those of
    CPython 3.11 (Unicode 14.0). *)

Module PyStr.

Definition code (c : ascii) : nat := nat_of_ascii c.

Definition is_upper (c : ascii) : bool :=
  (65 <=? code c)%nat && (code c <=? 90)%nat.

Definition lower_ascii (c : ascii) : ascii :=
  if is_upper c then ascii_of_nat (code c + 32) else c.

Definition is_ascii_char (c : ascii) : bool := (code c <? 128)%nat.

(** [s.isascii()] *)
Fixpoint is_ascii (s : string) : bool :=
  match s with
  | EmptyString => true
  | String c r => is_ascii_char c && is_ascii r
  end.

(** *** The characters of a string *)

Definition byte (c : ascii) : N := N_of_ascii c.

Definition is_cont (c : ascii) : bool :=
  (0x80 <=? byte c)%N && (byte c <? 0xC0)%N.

(** The code point that two, three or four bytes encode, if they are
    the encoding of one. *)
Definition point2 (c1 c2 : ascii) : option N :=
  if (0xC2 <=? byte c1)%N && (byte c1 <? 0xE0)%N && is_cont c2
  then Some ((byte c1 - 0xC0) * 0x40 + (byte c2 - 0x80))%N
  else None.

Definition point3 (c1 c2 c3 : ascii) : option N :=
  if (0xE0 <=? byte c1)%N && (byte c1 <? 0xF0)%N && is_cont c2 && is_cont c3
  then
    let p := ((byte c1 - 0xE0) * 0x1000 + (byte c2 - 0x80) * 0x40
              + (byte c3 - 0x80))%N in
    if (0x800 <=? p)%N then Some p else None
  else None.

Definition point4 (c1 c2 c3 c4 : ascii) : option N :=
  if (0xF0 <=? byte c1)%N && (byte c1 <? 0xF5)%N
     && is_cont c2 && is_cont c3 && is_cont c4
  then
    let p := ((byte c1 - 0xF0) * 0x40000 + (byte c2 - 0x80) * 0x1000
              + (byte c3 - 0x80) * 0x40 + (byte c4 - 0x80))%N in
    if (0x10000 <=? p)%N && (p <=? 0x10FFFF)%N then Some p else None
  else None.

(** A character: its code point and the bytes that encode it.  A byte
    that begins no character (there is none in the encoding of a
    [str]) stands alone, without a code point. *)
Definition char : Type := option N * string.

Definition bytes1 (c1 : ascii) : string := String c1 EmptyString.
Definition bytes2 (c1 c2 : ascii) : string := String c1 (bytes1 c2).
Definition bytes3 (c1 c2 c3 : ascii) : string := String c1 (bytes2 c2 c3).
Definition bytes4 (c1 c2 c3 c4 : ascii) : string :=
  String c1 (bytes3 c2 c3 c4).

Fixpoint chars (s : string) : list char :=
  match s with
  | EmptyString => []
  | String c1 r1 =>
      if is_ascii_char c1 then (Some (byte c1), bytes1 c1) :: chars r1
      else
        let stray := (None, bytes1 c1) :: chars r1 in
        match r1 with
        | EmptyString => stray
        | String c2 r2 =>
            match point2 c1 c2 with
            | Some p => (Some p, bytes2 c1 c2) :: chars r2
            | None =>
                match r2 with
                | EmptyString => stray
                | String c3 r3 =>
                    match point3 c1 c2 c3 with
                    | Some p => (Some p, bytes3 c1 c2 c3) :: chars r3
                    | None =>
                        match r3 with
                        | EmptyString => stray
                        | String c4 r4 =>
                            match point4 c1 c2 c3 c4 with
                            | Some p =>
                                (Some p, bytes4 c1 c2 c3 c4) :: chars r4
                            | None => stray
                            end
                        end
                    end
                end
            end
        end
  end.

(** The bytes of a list of strings, one after the other. *)
Fixpoint join (l : list string) : string :=
  match l with
  | [] => EmptyString
  | x :: r => x +:+ join r
  end.

(** [s[:n]]: the first [n] characters. *)
Definition slice_to (n : nat) (s : string) : string :=
  join (map snd (take n (chars s))).

(** *** [s.lower()]

    An ASCII capital goes to its small letter.  Two characters outside
    ASCII have a lower-case form with an ASCII letter in it: KELVIN
    SIGN (U+212A) becomes [k], and LATIN CAPITAL LETTER I WITH DOT
    ABOVE (U+0130) becomes [i] followed by U+0307.  The lower-case form
    of any other character outside ASCII is outside ASCII as well, and
    such a character is kept as it is: [lower s] has the ASCII
    characters of [s.lower()], in the same runs between the same number
    of other characters, which is what a comparison with an ASCII
    string, or a search for one, looks at. *)

Fixpoint lower_bytes (s : string) : string :=
  match s with
  | EmptyString => EmptyString
  | String c r => String (lower_ascii c) (lower_bytes r)
  end.

Definition combining_dot_above : string :=
  bytes2 (ascii_of_N 0xCC) (ascii_of_N 0x87).

Definition lower_char (c : char) : string :=
  match c with
  | (Some p, b) =>
      if (p =? 0x212A)%N then "k"
      else if (p =? 0x130)%N then String "i" combining_dot_above
      else lower_bytes b
  | (None, b) => b
  end.

Definition lower (s : string) : string := join (map lower_char (chars s)).

(** [s.startswith(p)] *)
Definition startswith (s p : string) : bool := String.prefix p s.

(** [p in s] for two strings: [p] occurs in [s] at some offset. *)
Fixpoint contains (p s : string) : bool :=
  String.prefix p s ||
  match s with
  | EmptyString => false
  | String _ r => contains p r
  end.

(** Truthiness of a string: the empty string is falsy. *)
Definition truthy (s : string) : bool :=
  match s with EmptyString => false | String _ _ => true end.

(** *** [s.strip()]

    The code points for which [str.isspace] holds: the ASCII blanks and
    separators, NEXT LINE, NO-BREAK SPACE, and the spaces and line
    separators of the higher blocks.  [strip] removes such characters
    from both ends. *)
Definition is_space (p : N) : bool :=
  (0x09 <=? p)%N && (p <=? 0x0D)%N
  || (0x1C <=? p)%N && (p <=? 0x20)%N
  || (p =? 0x85)%N || (p =? 0xA0)%N || (p =? 0x1680)%N
  || (0x2000 <=? p)%N && (p <=? 0x200A)%N
  || (p =? 0x2028)%N || (p =? 0x2029)%N || (p =? 0x202F)%N
  || (p =? 0x205F)%N || (p =? 0x3000)%N.

Definition is_space_char (c : char) : bool :=
  match c with
  | (Some p, _) => is_space p
  | (None, _) => false
  end.

Fixpoint lstrip_chars (l : list char) : list char :=
  match l with
  | [] => []
  | c :: r => if is_space_char c then lstrip_chars r else l
  end.

Definition rstrip_chars (l : list char) : list char :=
  rev (lstrip_chars (rev l)).

Definition strip (s : string) : string :=
  join (map snd (rstrip_chars (lstrip_chars (chars s)))).

(** *** [int(s)]

    Base-10 conversion of a [str].  A character outside ASCII is first
    replaced: a blank by a space, a decimal digit of any script by the
    ASCII digit of its value; any other one is a [ValueError], here
    [None].  Then the blanks around the literal are skipped (the C
    ones: tab to carriage return, and space), one sign is allowed, and
    the digits may be grouped by single underscores.  A literal of more
    than 4300 digits is a [ValueError] too (the default of
    [sys.get_int_max_str_digits()]). *)

(** The code point of the digit zero of each script; the nine code
    points that follow it are the digits one to nine. *)
Definition digit_zeros : list N :=
  [0x30; 0x660; 0x6F0; 0x7C0; 0x966; 0x9E6; 0xA66; 0xAE6; 0xB66; 0xBE6;
   0xC66; 0xCE6; 0xD66; 0xDE6; 0xE50; 0xED0; 0xF20; 0x1040; 0x1090;
   0x17E0; 0x1810; 0x1946; 0x19D0; 0x1A80; 0x1A90; 0x1B50; 0x1BB0;
   0x1C40; 0x1C50; 0xA620; 0xA8D0; 0xA900; 0xA9D0; 0xA9F0; 0xAA50;
   0xABF0; 0xFF10; 0x104A0; 0x10D30; 0x11066; 0x110F0; 0x11136;
   0x111D0; 0x112F0; 0x11450; 0x114D0; 0x11650; 0x116C0; 0x11730;
   0x118E0; 0x11950; 0x11C50; 0x11D50; 0x11DA0; 0x16A60; 0x16AC0;
   0x16B50; 0x1D7CE; 0x1D7D8; 0x1D7E2; 0x1D7EC; 0x1D7F6; 0x1E140;
   0x1E2F0; 0x1E950; 0x1FBF0]%N.

Definition decimal (p : N) : option N :=
  option_map (fun z => (p - z)%N)
    (List.find (fun z => (z <=? p)%N && (p <? z + 10)%N) digit_zeros).

Definition to_ascii (c : char) : option ascii :=
  match c with
  | (Some p, _) =>
      if (p <? 0x80)%N then Some (ascii_of_N p)
      else if is_space p then Some " "%char
      else option_map (fun d => ascii_of_N (0x30 + d)) (decimal p)
  | (None, _) => None
  end.

Fixpoint transform (l : list char) : option string :=
  match l with
  | [] => Some EmptyString
  | c :: r =>
      match to_ascii c with
      | Some a => option_map (String a) (transform r)
      | None => None
      end
  end.

Definition is_c_space (c : ascii) : bool :=
  (9 <=? code c)%nat && (code c <=? 13)%nat || (code c =? 32)%nat.

Fixpoint skip_c_space (s : string) : string :=
  match s with
  | EmptyString => EmptyString
  | String c r => if is_c_space c then skip_c_space r else s
  end.

Definition digit_val (c : ascii) : option Z :=
  if (48 <=? code c)%nat && (code c <=? 57)%nat
  then Some (Z.of_nat (code c - 48))
  else None.

Fixpoint all_c_space (s : string) : bool :=
  match s with
  | EmptyString => true
  | String c r => is_c_space c && all_c_space r
  end.

Definition int_max_str_digits : N := 4300.

Definition within_limit (digits : N) (v : Z) : option Z :=
  if (digits <=? int_max_str_digits)%N then Some v else None.

(** [digits] counts the digits read so far; [prev] tells whether the
    character just read was a digit: an underscore may only stand
    between two digits. *)
Fixpoint parse_digits (acc : Z) (digits : N) (prev : bool) (s : string)
    : option Z :=
  match s with
  | EmptyString => if prev then within_limit digits acc else None
  | String c r =>
      if Ascii.eqb c "_"%char then
        if prev then parse_digits acc digits false r else None
      else
        match digit_val c with
        | Some d => parse_digits (10 * acc + d) (digits + 1) true r
        | None =>
            if prev && all_c_space s then within_limit digits acc else None
        end
  end.

Definition parse_int (s : string) : option Z :=
  match skip_c_space s with
  | String "-" r => option_map Z.opp (parse_digits 0 0 false r)
  | String "+" r => parse_digits 0 0 false r
  | r => parse_digits 0 0 false r
  end.

Definition int (s : string) : option Z :=
  match transform (chars s) with
  | Some a => parse_int a
  | None => None
  end.

End PyStr.

(** ** Effects: exceptions and a trace of external calls *)

(** The exceptions the external libraries raise.  Each of them derives
    from [Exception], so [except Exception] and a bare [except] both
    catch every one. *)
Inductive exn : Type :=
  | WebDriverException
  | ValueError
  | TelegramError
  | APIError.

Inductive outcome (A : Type) : Type :=
  | Ok (a : A)
  | Raise (e : exn).
Arguments Ok {A} a.
Arguments Raise {A} e.

(** The texts the handler sends.  The numbers that are formatted into a
    text are kept as arguments. *)
Inductive message : Type :=
  | MsgUserError
  | MsgLimitReached
  | MsgInvalidUrl
  | MsgProcessing
  | MsgNoImages
  | MsgFound (n : nat)
  | MsgCaption (i n : nat)
  | MsgDirectLink (i : nat) (image_url : string)
  | MsgDone (success_count failed_count : nat) (remaining_downloads : Z)
  | MsgAllFailed
  | MsgWentWrong.

Definition nl : string := String (ascii_of_nat 10) EmptyString.

(** The text of each message, as the handler formats it. *)
Definition text_of (m : message) : string :=
  match m with
  | MsgUserError => "❌ Error creating user account. Please try again later."
  | MsgLimitReached => "❌ You've reached your daily limit of 5 downloads!" +:+ nl +:+ nl
        +:+ "Come back tomorrow or wait for premium features! 🚀"
  | MsgInvalidUrl => "❌ Please send a valid LinkedIn post URL!" +:+ nl +:+ nl
        +:+ "Example: https://www.linkedin.com/posts/..."
  | MsgProcessing => "🔍 Processing your LinkedIn post..." +:+ nl +:+ nl
        +:+ "This may take 15-30 seconds..."
  | MsgNoImages => "❌ No images found in this LinkedIn post!" +:+ nl +:+ nl
        +:+ "💡 *Possible reasons:*" +:+ nl
        +:+ "• Post has no images" +:+ nl
        +:+ "• Post is private/restricted" +:+ nl
        +:+ "• Images failed to load" +:+ nl +:+ nl
        +:+ "Try with a different public post!"
  | MsgFound n => "✅ Found " +:+ pretty n +:+ " images!" +:+ nl +:+ nl
        +:+ "Downloading and sending them now..."
  | MsgCaption i n => "🖼️ Image " +:+ pretty i +:+ "/" +:+ pretty n
  | MsgDirectLink i image_url => "📎 Image " +:+ pretty i +:+ " (direct link):" +:+ nl
        +:+ image_url
  | MsgDone success_count failed_count remaining_downloads =>
      "🎉 Download complete!" +:+ nl +:+ nl
        +:+ "✅ Successfully sent " +:+ pretty success_count +:+ " images"
      +:+ (if (0 <? failed_count)%nat
           then nl +:+ "⚠️ " +:+ pretty failed_count +:+ " images failed to send"
           else EmptyString)
      +:+ nl +:+ "📊 You have " +:+ pretty remaining_downloads +:+ " downloads left today"
  | MsgAllFailed => "❌ Failed to send any images. The images might be too large or have restricted access."
  | MsgWentWrong => "❌ Something went wrong while processing your request!" +:+ nl +:+ nl
        +:+ "Please try again later or contact support."
  end.

Inductive event : Type :=
  (* Supabase *)
  | EvRpcSetUserContext (telegram_id : Z)
  | EvSelectUser (telegram_id : Z)
  | EvInsertUser (telegram_id : Z)
  | EvUpdateLastActive (telegram_id : Z)
  | EvSelectUsage (user_id : Z)
  | EvInsertUsage (user_id : Z) (post_url : string) (image_count : nat)
  (* Selenium *)
  | EvInstallDriver
  | EvSessionCreated
  | EvExecuteScript (script : string)
  | EvGet (url : string)
  | EvFindElements (by_ value : string)
  | EvQuit
  (* time.sleep *)
  | EvSleep (seconds : nat)
  (* Telegram *)
  | EvReplyText (m : message)
  | EvEditText (m : message)
  | EvSendPhoto (photo : string) (caption : message)
  | EvSendMessage (text : message)
  (* logger.error *)
  | EvLogError (where_ : string).

Definition trace : Type := list event.

(** A computation: how it ends, and the calls it made on the way. *)
Definition M (A : Type) : Type := (outcome A * trace)%type.

Definition ret {A} (a : A) : M A := (Ok a, []).

Definition raise {A} (e : exn) : M A := (Raise e, []).

Definition bind {A B} (m : M A) (k : A -> M B) : M B :=
  match m with
  | (Ok a, t) => let (r, t') := k a in (r, t ++ t')
  | (Raise e, t) => (Raise e, t)
  end.

Declare Scope py_scope.
Delimit Scope py_scope with py.
Notation "'do' x <- m ; k" := (bind m (fun x => k))
  (at level 10, x name, m at level 100, k at level 200) : py_scope.
Notation "'do' ' p <- m ; k" := (bind m (fun x => let 'p := x in k))
  (at level 10, p strict pattern, m at level 100, k at level 200) : py_scope.
Notation "'run' m ; k" := (bind m (fun _ => k))
  (at level 10, m at level 100, k at level 200) : py_scope.
Open Scope py_scope.

(** A call into an external system: recorded, then it returns or raises. *)
Definition call (ev : event) (r : option exn) : M unit :=
  (match r with None => Ok tt | Some e => Raise e end, [ev]).

(** A call that returns a value. *)
Definition ask {A} (ev : event) (r : outcome A) : M A := (r, [ev]).

(** A call that leaves no entry in the trace. *)
Definition quiet {A} (r : outcome A) : M A := (r, []).

Definition emit (ev : event) : M unit := (Ok tt, [ev]).

Definition sleep (seconds : nat) : M unit := emit (EvSleep seconds).

Definition log_error (where_ : string) : M unit := emit (EvLogError where_).

Definition from_option {A} (e : exn) (o : option A) : M A :=
  match o with Some a => ret a | None => raise e end.

(** [try: m  except Exception as e: h e] (a bare [except:] is the same,
    every modelled exception being an [Exception]). *)
Definition try_except {A} (m : M A) (h : exn -> M A) : M A :=
  match m with
  | (Ok a, t) => (Ok a, t)
  | (Raise e, t) => let (r, t') := h e in (r, t ++ t')
  end.

(** [try: m  finally: fin].  [fin] runs on both ways out of [m]; an
    exception of [fin] replaces the outcome of [m]. *)
Definition try_finally {A} (m : M A) (fin : M unit) : M A :=
  let (r, t) := m in
  match fin with
  | (Ok _, t') => (r, t ++ t')
  | (Raise e, t') => (Raise e, t ++ t')
  end.

Definition result {A} (m : M A) : outcome A := fst m.
Definition calls {A} (m : M A) : trace := snd m.

(** ** Supabase helpers *)

Record user_row : Type := {
  row_id : Z;
  row_created_at : option string
}.

Record chat_user : Type := {
  tg_id : Z;
  tg_username : option string;
  tg_first_name : option string;
  tg_last_name : option string
}.

(** What the store answers.  [usage_select_today user_id] is
    [response.data] of the query of [get_today_usage]: the [usage_logs]
    rows of [user_id] whose [created_at] lies between today's
    [T00:00:00] and [T23:59:59]. *)
Record supabase : Type := {
  rpc_set_user_context : Z -> option exn;
  users_select : Z -> outcome (list user_row);
  users_insert : Z -> outcome (list user_row);
  users_update : Z -> outcome (list user_row);
  usage_select_today : Z -> outcome (list Z);
  usage_insert : Z -> string -> nat -> outcome (list Z)
}.

Section Store.

Variable db : supabase.

(** [set_user_context], lines 32-38: an error of the RPC is logged and
    swallowed. *)
Definition set_user_context (telegram_id : Z) : M unit :=
  try_except
    (call (EvRpcSetUserContext telegram_id) (rpc_set_user_context db telegram_id))
    (fun _ => log_error "set_user_context").

(** [response.data[0] if response.data else None] *)
Definition first_row {A} (data : list A) : option A := head data.

(** [get_or_create_user], lines 49-76: the row of the user, or [None]
    when the store raises or returns no row. *)
Definition get_or_create_user (u : chat_user) : M (option user_row) :=
  let telegram_id := tg_id u in
  try_except
    (run set_user_context telegram_id;
     do data <- ask (EvSelectUser telegram_id) (users_select db telegram_id);
     if (length data =? 0)%nat then
       do data' <- ask (EvInsertUser telegram_id) (users_insert db telegram_id);
       ret (first_row data')
     else
       do data' <- ask (EvUpdateLastActive telegram_id) (users_update db telegram_id);
       ret (first_row data'))
    (fun _ => run log_error "get_or_create_user"; ret None).

(** [log_usage], lines 78-91. *)
Definition log_usage (user_id : Z) (post_url : string) (image_count : nat)
  : M (option Z) :=
  try_except
    (do data <- ask (EvInsertUsage user_id post_url image_count)
                    (usage_insert db user_id post_url image_count);
     ret (first_row data))
    (fun _ => run log_error "log_usage"; ret None).

(** [get_today_usage], lines 93-108: the number of rows the query
    returns, and 0 when the query raises. *)
Definition get_today_usage (user_id : Z) : M nat :=
  try_except
    (do data <- ask (EvSelectUsage user_id) (usage_select_today db user_id);
     ret (length data))
    (fun _ => run log_error "get_today_usage"; ret 0%nat).

End Store.

(** ** The scraper *)

(** What reading an attribute of an element gives: [None], a string, or
    an exception (a stale element, a dead session). *)
Definition attr : Type := outcome (option string).

Record element : Type := {
  el_src : attr;
  el_alt : attr;
  el_width : attr;
  el_height : attr;
  el_style : attr
}.

(** One browser session.  [drv_execute_script k] answers the [k]-th call
    of [execute_script] of the session, counted from 0. *)
Record browser : Type := {
  drv_install : option exn;
  drv_chrome : option exn;
  drv_execute_script : nat -> option exn;
  drv_get : string -> option exn;
  drv_img_elements : outcome (list element);
  drv_all_elements : outcome (list element);
  drv_quit : option exn
}.

Definition stealth_js : string :=
  "Object.defineProperty(navigator, 'webdriver', {get: () => undefined})".
Definition scroll_js : string :=
  "window.scrollTo(0, document.body.scrollHeight);".

Definition exclude_patterns : list string :=
  [ "linkedin.com/in/"; "/company-logo/"; "/vector/"; "sprite";
    "logo"; "icon"; "emoji"; "reaction" ].

(** [any(pattern in src.lower() for pattern in exclude_patterns)] *)
Definition should_exclude (src : string) : bool :=
  existsb (fun pattern => PyStr.contains pattern (PyStr.lower src)) exclude_patterns.

(** Truthiness of what [get_attribute] returned. *)
Definition truthy (v : option string) : bool :=
  match v with Some s => PyStr.truthy s | None => false end.

(** [int(v)] for an attribute value that passed the truthiness test. *)
Definition py_int (v : option string) : M Z :=
  match v with
  | Some s => from_option ValueError (PyStr.int s)
  | None => raise ValueError
  end.

Section Scraper.

Variable b : browser.

(** The webdriver constructor; the session exists once it has returned. *)
Definition chrome : M unit :=
  match drv_chrome b with
  | None => emit EvSessionCreated
  | Some e => raise e
  end.

Definition execute_script (k : nat) (script : string) : M unit :=
  call (EvExecuteScript script) (drv_execute_script b k).

(** Lines 146-148, [for i in range(3)]: scroll to the bottom, then wait. *)
Fixpoint scroll_loop (k : nat) (todo : nat) : M unit :=
  match todo with
  | O => ret tt
  | S todo' =>
      run execute_script k scroll_js;
      run sleep 2;
      scroll_loop (S k) todo'
  end.

(** Lines 155-166.  The first pass over the elements only logs them; an error on an
    element is logged and the pass goes on. *)
Fixpoint debug_pass (img_elements : list element) (all_images_debug : list string)
  : M (list string) :=
  match img_elements with
  | [] => ret all_images_debug
  | img :: rest =>
      do all_images_debug' <-
        try_except
          (do src <- quiet (el_src img);
           do alt <- quiet (el_alt img);
           do width <- quiet (el_width img);
           do height <- quiet (el_height img);
           match src with
           | Some s => if PyStr.truthy s then ret (all_images_debug ++ [s])
                       else ret all_images_debug
           | None => ret all_images_debug
           end)
          (fun _ => run log_error "getting attributes"; ret all_images_debug);
      debug_pass rest all_images_debug'
  end.

(** Lines 171-188.  The count of the first 100 elements whose [style] has a background
    image; an error on an element is passed over in silence. *)
Fixpoint background_pass (all_elements : list element) (bg_images_found : nat)
  : M nat :=
  match all_elements with
  | [] => ret bg_images_found
  | el :: rest =>
      do found <-
        try_except
          (do style <- quiet (el_style el);
           match style with
           | Some s =>
               if PyStr.truthy s && PyStr.contains "background-image" s
                  && PyStr.contains "url(" s
               then ret (S bg_images_found) else ret bg_images_found
           | None => ret bg_images_found
           end)
          (fun _ => ret bg_images_found);
      background_pass rest found
  end.

Definition background_check : M unit :=
  try_except
    (do all_elements <- ask (EvFindElements "css selector" "*") (drv_all_elements b);
     do _ <- background_pass (take 100 all_elements) 0;
     ret tt)
    (fun _ => log_error "checking background images").

(** Lines 221-231.  The size test of an element: [true] when the element is skipped
    as a small image.  Any exception in it is swallowed. *)
Definition small_image (img : element) : M bool :=
  try_except
    (do width <- quiet (el_width img);
     do height <- quiet (el_height img);
     if truthy width && truthy height then
       do w <- py_int width;
       do h <- py_int height;
       ret ((w <? 50)%Z || (h <? 50)%Z)
     else ret false)
    (fun _ => ret false).

(** Lines 191-240.  One round of the main loop: [images] before, [images]
    after.  [logger.info] is not traced. *)
Definition process_image (img : element) (images : list string) : M (list string) :=
  try_except
    (do src <- quiet (el_src img);
     do alt <- quiet (el_alt img);
     match src with
     | None => ret images
     | Some src =>
         if negb (PyStr.truthy src) || PyStr.startswith src "data:" then ret images
         else if should_exclude src then ret images
         else if PyStr.startswith src "http" then
           do small <- small_image img;
           if small then ret images else ret (images ++ [src])
         else ret images
     end)
    (fun _ => run log_error "processing image element"; ret images).

Fixpoint main_pass (img_elements : list element) (images : list string)
  : M (list string) :=
  match img_elements with
  | [] => ret images
  | img :: rest =>
      do images' <- process_image img images;
      main_pass rest images'
  end.

(** Lines 141-240, the body of the inner [try].  It raises only before
    the main loop starts, the rounds of the three passes catching
    their own exceptions: when it raises, [images] is still empty. *)
Definition scrape (post_url : string) : M (list string) :=
  run call (EvGet post_url) (drv_get b post_url);
  run sleep 8;
  run scroll_loop 1 3;
  do img_elements <- ask (EvFindElements "tag name" "img") (drv_img_elements b);
  do _ <- debug_pass img_elements [];
  run background_check;
  main_pass img_elements [].

(** Lines 247-253: remove duplicates while preserving order. *)
Fixpoint dedup_loop (images : list string) (seen : gset string)
    (unique_images : list string) : list string :=
  match images with
  | [] => unique_images
  | img :: rest =>
      if decide (img ∉ seen)
      then dedup_loop rest ({[img]} ∪ seen) (unique_images ++ [img])
      else dedup_loop rest seen unique_images
  end.

Definition unique (images : list string) : list string :=
  dedup_loop images ∅ [].

(** Lines 133-245.  From the creation of the session to the end of [finally]:
    [images] as the loop left them. *)
Definition session (post_url : string) : M (list string) :=
  run call EvInstallDriver (drv_install b);
  run chrome;
  run execute_script 0 stealth_js;
  try_finally
    (try_except (scrape post_url)
                (fun _ => run log_error "Selenium error"; ret []))
    (call EvQuit (drv_quit b)).

(** [LinkedInScraper.extract_images], lines 118-260. *)
Definition extract_images (post_url : string) : M (list string) :=
  try_except
    (do images <- session post_url;
     ret (unique images))
    (fun _ => run log_error "extract_images"; ret []).

End Scraper.

(** ** The handler of a text message *)

(** What Telegram answers to each call. *)
Record telegram : Type := {
  tg_reply_text : message -> option exn;
  tg_edit_text : message -> option exn;
  tg_send_photo : string -> message -> option exn;
  tg_send_message : message -> option exn
}.

Section Handler.

Variable db : supabase.
Variable b : browser.
Variable tg : telegram.

Definition reply_text (m : message) : M unit :=
  call (EvReplyText m) (tg_reply_text tg m).

Definition edit_text (m : message) : M unit :=
  call (EvEditText m) (tg_edit_text tg m).

Definition send_photo (photo : string) (caption : message) : M unit :=
  call (EvSendPhoto photo caption) (tg_send_photo tg photo caption).

Definition send_message (text : message) : M unit :=
  call (EvSendMessage text) (tg_send_message tg text).

(** Lines 424-443.  One round of the sending loop, for the image at index [i] of [n]:
    the two counters before, the two counters after. *)
Definition send_one (n i : nat) (image_url : string)
    (success_count failed_count : nat) : M (nat * nat) :=
  try_except
    (run send_photo image_url (MsgCaption (i + 1) n);
     run sleep 1;
     ret (success_count + 1, failed_count)%nat)
    (fun _ =>
       run log_error "sending image";
       run try_except (send_message (MsgDirectLink (i + 1) image_url))
                      (fun _ => ret tt);
       ret (success_count, failed_count + 1)%nat).

(** Line 423, [for i, image_url in enumerate(images)]. *)
Fixpoint send_loop (n i : nat) (images : list string)
    (success_count failed_count : nat) : M (nat * nat) :=
  match images with
  | [] => ret (success_count, failed_count)
  | image_url :: rest =>
      do '(s, f) <- send_one n i image_url success_count failed_count;
      send_loop n (S i) rest s f
  end.

(** Lines 414-447: from the cap on the list to the usage log. *)
Definition deliver (user_id : Z) (url : string) (found : list string)
  : M (nat * nat) :=
  let images := take 10 found in
  run edit_text (MsgFound (length images));
  do '(success_count, failed_count) <- send_loop (length images) 0 images 0 0;
  run (if (0 <? success_count)%nat || (0 <? failed_count)%nat
       then do _ <- log_usage db user_id url success_count; ret tt
       else ret tt);
  ret (success_count, failed_count).

(** Lines 450-458: the last text of a request that reached the loop. *)
Definition final_message (today_usage success_count failed_count : nat) : M unit :=
  if (0 <? success_count)%nat then
    let remaining_downloads := (4 - Z.of_nat today_usage)%Z in
    reply_text (MsgDone success_count failed_count remaining_downloads)
  else reply_text MsgAllFailed.

(** Lines 404-462: the part of the handler inside its [try]. *)
Definition process (user_id : Z) (today_usage : nat) (url : string) : M unit :=
  try_except
    (do images <- extract_images b url;
     match images with
     | [] => edit_text MsgNoImages
     | _ :: _ =>
         do '(success_count, failed_count) <- deliver user_id url images;
         final_message today_usage success_count failed_count
     end)
    (fun _ => run log_error "processing URL"; edit_text MsgWentWrong).

(** [handle_url], lines 375-462. *)
Definition handle_url (user : chat_user) (text : string) : M unit :=
  do db_user <- get_or_create_user db user;
  match db_user with
  | None => reply_text MsgUserError
  | Some db_user =>
      do today_usage <- get_today_usage db (row_id db_user);
      if (5 <=? today_usage)%nat then reply_text MsgLimitReached
      else
        let url := PyStr.strip text in
        if negb (PyStr.contains "linkedin.com" url) then reply_text MsgInvalidUrl
        else
          run reply_text MsgProcessing;
          process (row_id db_user) today_usage url
  end.

End Handler.

(** ** Classes of calls *)

Definition is_browser_call (ev : event) : bool :=
  match ev with
  | EvInstallDriver | EvSessionCreated | EvExecuteScript _ | EvGet _
  | EvFindElements _ _ | EvQuit => true
  | _ => false
  end.

Definition is_delivery (ev : event) : bool :=
  match ev with
  | EvSendPhoto _ _ | EvSendMessage _ => true
  | _ => false
  end.

Definition is_usage_write (ev : event) : bool :=
  match ev with
  | EvInsertUsage _ _ _ => true
  | _ => false
  end.

Definition is_send_photo (ev : event) : bool :=
  match ev with
  | EvSendPhoto _ _ => true
  | _ => false
  end.


(** The calls the scraper makes: the browser, the clock and the log. *)
Definition is_scraper_call (ev : event) : bool :=
  match ev with
  | EvInstallDriver | EvSessionCreated | EvExecuteScript _ | EvGet _
  | EvFindElements _ _ | EvQuit | EvSleep _ | EvLogError _ => true
  | _ => false
  end.

Definition scraper_only (ev : event) : Prop := is_scraper_call ev = true.

(** ** Notions the properties are stated with *)

(** *** Substring match that ignores the case of ASCII letters

    Stated on the characters, without [lower]: two characters agree when
    they are equal or are the two cases of one letter. *)

Definition eqb_nocase (a c : ascii) : bool :=
  Ascii.eqb a c
  || PyStr.is_upper a && (PyStr.code c =? PyStr.code a + 32)%nat
  || PyStr.is_upper c && (PyStr.code a =? PyStr.code c + 32)%nat.

Fixpoint prefix_nocase (p s : string) : bool :=
  match p, s with
  | EmptyString, _ => true
  | String _ _, EmptyString => false
  | String a p', String c s' => eqb_nocase a c && prefix_nocase p' s'
  end.

Fixpoint occurs_nocase (p s : string) : bool :=
  prefix_nocase p s ||
  match s with
  | EmptyString => false
  | String _ r => occurs_nocase p r
  end.

(** The URL contains one of the denylist substrings, case ignored. *)
Definition denylisted (url : string) : bool :=
  existsb (fun pattern => occurs_nocase pattern url) exclude_patterns.

(** *** Dimensions of an element *)

(** The attribute is missing: [None] or the empty string. *)
Definition dimension_unknown (a : attr) : Prop :=
  a = Ok None \/ a = Ok (Some EmptyString).

(** The attribute is there and reads as the integer [n]. *)
Definition dimension_known (a : attr) (n : Z) : Prop :=
  exists s, a = Ok (Some s) /\ PyStr.int s = Some n.

(** The element reaches the size test: both reads at the head of the
    round return, and [src] passes the tests before it. *)
Definition passes_url_checks (img : element) (src : string) : Prop :=
  el_src img = Ok (Some src)
  /\ (exists alt, el_alt img = Ok alt)
  /\ PyStr.truthy src = true
  /\ PyStr.startswith src "data:" = false
  /\ should_exclude src = false
  /\ PyStr.startswith src "http" = true.

(** The round of the main loop for [img] appends [src]. *)
Definition accepts (img : element) (src : string) : Prop :=
  forall images, process_image img images = (Ok (images ++ [src]), []).

(** The round of the main loop for [img] leaves [images] as it was. *)
Definition skips (img : element) : Prop :=
  forall images, exists t, process_image img images = (Ok images, t).

(** *** Phases of a browser session *)

Definition returns_ (r : option exn) : bool :=
  match r with None => true | Some _ => false end.

(** Driver installed, session created, first script run. *)
Definition session_starts (b : browser) : bool :=
  returns_ (drv_install b) && returns_ (drv_chrome b)
  && returns_ (drv_execute_script b 0).

(** Navigation, the three scrolls and the enumeration of the images
    all return. *)
Definition page_loads (b : browser) (post_url : string) : bool :=
  returns_ (drv_get b post_url)
  && returns_ (drv_execute_script b 1) && returns_ (drv_execute_script b 2)
  && returns_ (drv_execute_script b 3)
  && match drv_img_elements b with Ok _ => true | Raise _ => false end.

Definition session_closes (b : browser) : bool := returns_ (drv_quit b).

(** [images] as the main loop leaves them on the elements of the page. *)
Definition images_of_page (b : browser) : list string :=
  match drv_img_elements b with
  | Ok img_elements =>
      match result (main_pass img_elements []) with
      | Ok images => images
      | Raise _ => []
      end
  | Raise _ => []
  end.

(** *** Pages and browsers to run the scraper on *)

(** An element whose attributes all read without error. *)
Definition img_element (src : string) (width height : option string) : element :=
  {| el_src := Ok (Some src); el_alt := Ok (Some EmptyString);
     el_width := Ok width; el_height := Ok height; el_style := Ok None |}.

(** A browser in which every call returns, showing [img_elements]. *)
Definition healthy_browser (img_elements : list element) : browser :=
  {| drv_install := None; drv_chrome := None;
     drv_execute_script := fun _ => None;
     drv_get := fun _ => None;
     drv_img_elements := Ok img_elements;
     drv_all_elements := Ok img_elements;
     drv_quit := None |}.

(** A browser that starts, and whose first [execute_script] raises. *)
Definition first_script_fails (img_elements : list element) : browser :=
  {| drv_install := None; drv_chrome := None;
     drv_execute_script :=
       fun k => match k with O => Some WebDriverException | S _ => None end;
     drv_get := fun _ => None;
     drv_img_elements := Ok img_elements;
     drv_all_elements := Ok img_elements;
     drv_quit := None |}.

Definition post : string := "https://www.linkedin.com/posts/someone_activity-1".
Definition photo_a : string := "https://media.licdn.com/dms/image/a/photo.jpg".
Definition photo_b : string := "https://media.licdn.com/dms/image/b/photo.jpg".
Definition photo_c : string := "https://media.licdn.com/dms/image/c/photo.jpg".
Definition company_logo : string := "https://media.licdn.com/dms/image/Company-LOGO/x.png".

(** A page for the size test: a 40x300 image, an image without
    dimensions, and an image with a denylisted URL. *)
Definition thumb : element := img_element photo_a (Some "40") (Some "300").
Definition unsized : element := img_element photo_b None None.
Definition logo_img : element := img_element company_logo (Some "400") (Some "400").

(** A page that shows one image twice. *)
Definition repeated_page : list element :=
  [ img_element photo_a None None; img_element photo_b None None;
    img_element photo_a None None; img_element photo_c None None ].

(** *** The delivery loop *)

(** A call that is neither browser automation, nor a delivery, nor a
    write to the usage log. *)
Definition no_extraction (ev : event) : Prop :=
  is_browser_call ev = false /\ is_delivery ev = false
  /\ is_usage_write ev = false.

(** The media send for the image at index [i] of [n] returns. *)
Definition media_sent (tg : telegram) (n i : nat) (image_url : string) : bool :=
  returns_ (tg_send_photo tg image_url (MsgCaption (i + 1) n)).

(** The number of images, counted from index [i], whose media send
    returns ([sent = true]) or raises ([sent = false]). *)
Fixpoint count_media (tg : telegram) (n i : nat) (images : list string)
    (sent : bool) : nat :=
  match images with
  | [] => 0
  | image_url :: rest =>
      (if Bool.eqb (media_sent tg n i image_url) sent then 1 else 0)
      + count_media tg n (S i) rest sent
  end.

(** The media sends for [images], in order, counted from index [i]. *)
Fixpoint attempts (n i : nat) (images : list string) : list event :=
  match images with
  | [] => []
  | image_url :: rest =>
      EvSendPhoto image_url (MsgCaption (i + 1) n) :: attempts n (S i) rest
  end.

(** *** Stores, chats and users to run the handler on *)

Definition alice : chat_user :=
  {| tg_id := 1001; tg_username := Some "alice";
     tg_first_name := Some "Alice"; tg_last_name := None |}.

Definition alice_row : user_row :=
  {| row_id := 7; row_created_at := Some "2024-05-01 10:00:00.000000" |}.

(** A store that answers every call, with [today] usage rows for today. *)
Definition store_with (today : nat) : supabase :=
  {| rpc_set_user_context := fun _ => None;
     users_select := fun _ => Ok [alice_row];
     users_insert := fun _ => Ok [alice_row];
     users_update := fun _ => Ok [alice_row];
     usage_select_today := fun _ => Ok (map Z.of_nat (seq 1 today));
     usage_insert := fun _ _ _ => Ok [99%Z] |}.

(** The same store with the query on [usage_logs] failing. *)
Definition store_usage_query_down : supabase :=
  {| rpc_set_user_context := fun _ => None;
     users_select := fun _ => Ok [alice_row];
     users_insert := fun _ => Ok [alice_row];
     users_update := fun _ => Ok [alice_row];
     usage_select_today := fun _ => Raise APIError;
     usage_insert := fun _ _ _ => Ok [99%Z] |}.

(** A store that cannot be reached at all. *)
Definition store_down : supabase :=
  {| rpc_set_user_context := fun _ => Some APIError;
     users_select := fun _ => Raise APIError;
     users_insert := fun _ => Raise APIError;
     users_update := fun _ => Raise APIError;
     usage_select_today := fun _ => Raise APIError;
     usage_insert := fun _ _ _ => Raise APIError |}.

(** A chat in which every call returns. *)
Definition chat_ok : telegram :=
  {| tg_reply_text := fun _ => None; tg_edit_text := fun _ => None;
     tg_send_photo := fun _ _ => None; tg_send_message := fun _ => None |}.

(** A chat that refuses [bad] as a photo and accepts everything else. *)
Definition chat_refusing (bad : string) : telegram :=
  {| tg_reply_text := fun _ => None; tg_edit_text := fun _ => None;
     tg_send_photo :=
       fun photo _ => if String.eqb photo bad then Some TelegramError else None;
     tg_send_message := fun _ => None |}.

(** [k] distinct image URLs. *)
Definition numbered (k : nat) : list string :=
  map (fun i => String (ascii_of_nat (65 + i)) EmptyString) (seq 0 k).

(** ** Further notions: record updates, measures of a trace *)

(** The store [db] with the RPC [set_user_context] answering [r]. *)
Definition with_rpc (db : supabase) (r : Z -> option exn) : supabase :=
  {| rpc_set_user_context := r;
     users_select := users_select db;
     users_insert := users_insert db;
     users_update := users_update db;
     usage_select_today := usage_select_today db;
     usage_insert := usage_insert db |}.

(** The browser [b] with the enumeration of all elements answering [r]. *)
Definition with_all_elements (b : browser) (r : outcome (list element)) : browser :=
  {| drv_install := drv_install b;
     drv_chrome := drv_chrome b;
     drv_execute_script := drv_execute_script b;
     drv_get := drv_get b;
     drv_img_elements := drv_img_elements b;
     drv_all_elements := r;
     drv_quit := drv_quit b |}.

(** The seconds a trace spends in [time.sleep]. *)
Fixpoint slept (t : trace) : nat :=
  match t with
  | [] => 0
  | EvSleep seconds :: rest => seconds + slept rest
  | _ :: rest => slept rest
  end.

Definition is_quit (ev : event) : bool :=
  match ev with EvQuit => true | _ => false end.

(** The photos a trace sends, in order. *)
Fixpoint photos_sent (t : trace) : list string :=
  match t with
  | [] => []
  | EvSendPhoto photo _ :: rest => photo :: photos_sent rest
  | _ :: rest => photos_sent rest
  end.

(** A store whose look-up of the user finds no row, and whose insert
    returns the new row. *)
Definition store_new_user : supabase :=
  {| rpc_set_user_context := fun _ => None;
     users_select := fun _ => Ok [];
     users_insert := fun _ => Ok [alice_row];
     users_update := fun _ => Ok [];
     usage_select_today := fun _ => Ok [];
     usage_insert := fun _ _ _ => Ok [99%Z] |}.

(** A chat in which no photo goes through. *)
Definition chat_no_photo : telegram :=
  {| tg_reply_text := fun _ => None; tg_edit_text := fun _ => None;
     tg_send_photo := fun _ _ => Some TelegramError;
     tg_send_message := fun _ => None |}.

(** An element whose width is not a number. *)
Definition px_sized : element :=
  img_element photo_c (Some "40px") (Some "40").

(** *** Strings with characters outside ASCII *)

(** KELVIN SIGN, U+212A. *)
Definition kelvin_sign : string :=
  PyStr.bytes3 (ascii_of_N 0xE2) (ascii_of_N 0x84) (ascii_of_N 0xAA).

(** NO-BREAK SPACE, U+00A0. *)
Definition no_break_space : string :=
  PyStr.bytes2 (ascii_of_N 0xC2) (ascii_of_N 0xA0).

(** FULLWIDTH DIGIT FOUR and FULLWIDTH DIGIT ZERO, U+FF14 and U+FF10. *)
Definition fullwidth_40 : string :=
  PyStr.bytes3 (ascii_of_N 0xEF) (ascii_of_N 0xBC) (ascii_of_N 0x94)
  +:+ PyStr.bytes3 (ascii_of_N 0xEF) (ascii_of_N 0xBC) (ascii_of_N 0x90).

(** A literal of [n] digits. *)
Definition ones (n : nat) : string := string_of_list_ascii (repeat "1"%char n).

(** A URL that spells the host with the Kelvin sign. *)
Definition kelvin_url : string :=
  "https://lin" +:+ kelvin_sign +:+ "edin.com/in/p.jpg".

(** An image of 40 by 40 whose dimensions are written with full-width
    digits, and one whose width has more digits than [int] reads. *)
Definition fullwidth_sized : element :=
  img_element photo_c (Some fullwidth_40) (Some fullwidth_40).
Definition long_width : element :=
  img_element photo_c (Some (ones 4301)) (Some "10").

(** The attribute cannot be read as a number: the read raises, or the
    value is not an integer literal. *)
Definition dimension_unreadable (a : attr) : Prop :=
  (exists e, a = Raise e) \/ (exists s, a = Ok (Some s) /\ PyStr.int s = None).

(** What [process] does once the extraction has returned [images]. *)
Definition after_extract (db : supabase) (tg : telegram) (user_id : Z)
    (today_usage : nat) (url : string) (images : list string) : M unit :=
  try_except
    (match images with
     | [] => edit_text tg MsgNoImages
     | _ :: _ =>
         do '(success_count, failed_count) <- deliver db tg user_id url images;
         final_message tg today_usage success_count failed_count
     end)
    (fun _ => run log_error "processing URL"; edit_text tg MsgWentWrong).

(** The text [final_message] sends. *)
Definition final_text (today_usage success_count failed_count : nat) : message :=
  if (0 <? success_count)%nat
  then MsgDone success_count failed_count (4 - Z.of_nat today_usage)
  else MsgAllFailed.

(** A status text or a log entry: neither a reply, nor a send, nor a
    call on the store or the browser. *)
Definition is_status (ev : event) : bool :=
  match ev with
  | EvEditText _ | EvLogError _ => true
  | _ => false
  end.

(** The calls the handler makes before the extraction: the look-ups on
    the store, the log, and the four texts that end or announce a
    request. *)
Definition is_lookup (ev : event) : bool :=
  match ev with
  | EvRpcSetUserContext _ | EvSelectUser _ | EvInsertUser _
  | EvUpdateLastActive _ | EvSelectUsage _ | EvLogError _
  | EvReplyText MsgUserError | EvReplyText MsgLimitReached
  | EvReplyText MsgInvalidUrl | EvReplyText MsgProcessing => true
  | _ => false
  end.

(** The calls of the sending loop. *)
Definition is_loop_call (ev : event) : bool :=
  match ev with
  | EvSendPhoto _ _ | EvSendMessage _ | EvSleep _ | EvLogError _ => true
  | _ => false
  end.

(** The final text of a request that sent at least one image. *)
Definition is_done_reply (ev : event) : bool :=
  match ev with
  | EvReplyText (MsgDone _ _ _) => true
  | _ => false
  end.

(** ** The menu handlers, the dispatcher and the start of the bot

    The handlers of the commands and of the inline buttons send texts of
    their own and meet one more exception: [update.message] is [None]
    for a press on a button, and [update.callback_query] is [None] for a
    message, so that a method called on them raises [AttributeError]. *)

Inductive ui_exn : Type :=
  | LibError (e : exn)
  | AttributeError.

Inductive ui_outcome (A : Type) : Type :=
  | UOk (a : A)
  | URaise (e : ui_exn).
Arguments UOk {A} a.
Arguments URaise {A} e.

(** The inline buttons, by their [callback_data]. *)
Inductive button : Type :=
  | BtnStats
  | BtnHelp
  | BtnBack.

Definition callback_data (btn : button) : string :=
  match btn with
  | BtnStats => "stats"
  | BtnHelp => "help"
  | BtnBack => "back_to_main"
  end.

(** The keyboard under the welcome text, and the one under the stats. *)
Definition main_keyboard : list (list button) := [[BtnStats]; [BtnHelp]].
Definition back_keyboard : list (list button) := [[BtnBack]].

(** The texts of the menu.  [TxtWelcome] is the welcome of [start],
    [TxtWelcomeBack] the one of [back_to_main_callback], which lacks the
    last line. *)
Inductive ui_text : Type :=
  | TxtWelcome
  | TxtWelcomeBack
  | TxtHelp
  | TxtStats (user_id : Z) (first_name last_name joined : string)
             (today_usage : nat)
  | TxtStatsError.

Inductive ui_event : Type :=
  | UiCore (ev : event)
  | UiProbeUsers
  | UiLogInfo (what : string)
  | UiLogError (what : string)
  | UiAnswer
  | UiReplyMenu (t : ui_text) (keyboard : list (list button))
  | UiEditMenu (t : ui_text) (keyboard : list (list button))
  | UiUpdater (token : string)
  | UiAddHandlers
  | UiStartPolling
  | UiIdle.

Definition U (A : Type) : Type := (ui_outcome A * list ui_event)%type.

Definition uret {A} (a : A) : U A := (UOk a, []).

Definition uraise {A} (e : ui_exn) : U A := (URaise e, []).

Definition ubind {A B} (m : U A) (k : A -> U B) : U B :=
  match m with
  | (UOk a, t) => let (r, t') := k a in (r, t ++ t')
  | (URaise e, t) => (URaise e, t)
  end.

Notation "'udo' x <- m ; k" := (ubind m (fun x => k))
  (at level 10, x name, m at level 100, k at level 200) : py_scope.
Notation "'urun' m ; k" := (ubind m (fun _ => k))
  (at level 10, m at level 100, k at level 200) : py_scope.

Definition utry {A} (m : U A) (h : ui_exn -> U A) : U A :=
  match m with
  | (UOk a, t) => (UOk a, t)
  | (URaise e, t) => let (r, t') := h e in (r, t ++ t')
  end.

(** A computation of the store helpers or of [handle_url], run by a
    menu handler or by the dispatcher. *)
Definition lift {A} (m : M A) : U A :=
  (match fst m with Ok a => UOk a | Raise e => URaise (LibError e) end,
   map UiCore (snd m)).

Definition ucall (ev : ui_event) (r : option exn) : U unit :=
  (match r with None => UOk tt | Some e => URaise (LibError e) end, [ev]).

Definition uemit (ev : ui_event) : U unit := (UOk tt, [ev]).

Definition uresult {A} (m : U A) : ui_outcome A := fst m.
Definition ucalls {A} (m : U A) : list ui_event := snd m.

(** An update, as the handlers use it: a message of a user, with the
    command its text starts with if it starts with one, or a press of a
    user on an inline button, with the data of the button. *)
Inductive update : Type :=
  | Message (user : chat_user) (text : string) (command : option string)
  | CallbackQuery (user : chat_user) (data : string).

Definition effective_user (u : update) : chat_user :=
  match u with
  | Message user _ _ => user
  | CallbackQuery user _ => user
  end.

(** What the chat answers to the calls of the menu handlers. *)
Record menu_chat : Type := {
  mc_answer : option exn;
  mc_reply_text : ui_text -> option exn;
  mc_edit_message_text : ui_text -> option exn
}.

(** [s or ''] *)
Definition or_empty (s : option string) : string :=
  match s with Some v => v | None => EmptyString end.

(** [db_user['created_at'][:10] if db_user['created_at'] else 'N/A'] *)
Definition joined_on (row : user_row) : string :=
  match row_created_at row with
  | Some s => if PyStr.truthy s then PyStr.slice_to 10 s else "N/A"
  | None => "N/A"
  end.

(** [re.match(pattern, data)] for a pattern [^word$]: [$] matches at the
    end of the data and before a newline that ends it. *)
Definition re_match_word (word data : string) : bool :=
  String.eqb data word || String.eqb data (word +:+ nl).

Section Menu.

Variable db : supabase.
Variable mc : menu_chat.

(** [update.message.reply_text(text, ...)] *)
Definition message_reply_text (u : update) (t : ui_text)
    (keyboard : list (list button)) : U unit :=
  match u with
  | Message _ _ _ => ucall (UiReplyMenu t keyboard) (mc_reply_text mc t)
  | CallbackQuery _ _ => uraise AttributeError
  end.

(** [start], lines 263-298: what [get_or_create_user] returns is not
    looked at. *)
Definition start (u : update) : U unit :=
  udo _ <- lift (get_or_create_user db (effective_user u));
  message_reply_text u TxtWelcome main_keyboard.

(** [help_command], lines 300-320. *)
Definition help_command (u : update) : U unit :=
  message_reply_text u TxtHelp [].

(** [get_or_create_user(user.id)]: the other arguments keep their
    default, [None]. *)
Definition id_only (user : chat_user) : chat_user :=
  {| tg_id := tg_id user; tg_username := None;
     tg_first_name := None; tg_last_name := None |}.

(** [stats_callback], lines 322-347. *)
Definition stats_callback (u : update) : U unit :=
  match u with
  | Message _ _ _ => uraise AttributeError
  | CallbackQuery user _ =>
      urun ucall UiAnswer (mc_answer mc);
      udo db_user <- lift (get_or_create_user db (id_only user));
      udo stats_text <-
        match db_user with
        | Some row =>
            udo today_usage <- lift (get_today_usage db (row_id row));
            uret (TxtStats (tg_id user) (or_empty (tg_first_name user))
                    (or_empty (tg_last_name user)) (joined_on row) today_usage)
        | None => uret TxtStatsError
        end;
      ucall (UiEditMenu stats_text back_keyboard) (mc_edit_message_text mc stats_text)
  end.

(** [back_to_main_callback], lines 349-373. *)
Definition back_to_main_callback (u : update) : U unit :=
  match u with
  | Message _ _ _ => uraise AttributeError
  | CallbackQuery _ _ =>
      urun ucall UiAnswer (mc_answer mc);
      ucall (UiEditMenu TxtWelcomeBack main_keyboard)
            (mc_edit_message_text mc TxtWelcomeBack)
  end.

(** [error_handler], lines 464-465. *)
Definition error_handler (e : ui_exn) : U unit :=
  uemit (UiLogError "Update caused error").

End Menu.

Section Dispatch.

Variable db : supabase.
Variable b : browser.
Variable tg : telegram.
Variable mc : menu_chat.

(** The handler that the table of [main], lines 482-487, gives to an
    update: the first one, in the order of registration, whose test the
    update passes.  [CommandHandler] compares the command in lower case. *)
Definition route (u : update) : option (U unit) :=
  match u with
  | Message user text (Some command) =>
      if String.eqb (PyStr.lower command) "start" then Some (start db mc u)
      else if String.eqb (PyStr.lower command) "help" then Some (help_command mc u)
      else None
  | Message user text None => Some (lift (handle_url db b tg user text))
  | CallbackQuery _ data =>
      if re_match_word "stats" data then Some (stats_callback db mc u)
      else if re_match_word "back_to_main" data
      then Some (back_to_main_callback mc u)
      else if re_match_word "help" data then Some (help_command mc u)
      else None
  end.

(** One update through the dispatcher: the handler runs, and an
    exception it raises goes to [error_handler] (line 490). *)
Definition dispatch (u : update) : U unit :=
  match route u with
  | Some handler => utry handler error_handler
  | None => uret tt
  end.

End Dispatch.

(** [init_db], lines 41-47: [probe] is what the query on [users]
    answers. *)
Definition init_db (probe : option exn) : U unit :=
  utry (urun ucall UiProbeUsers probe; uemit (UiLogInfo "Database connection successful"))
       (fun _ => uemit (UiLogError "Database connection failed")).

(** [main], lines 467-495: [token] is [os.getenv('TELEGRAM_TOKEN')],
    [updater] what the constructor of [Updater] answers. *)
Definition main (probe : option exn) (token : option string)
    (updater : string -> option exn) : U unit :=
  urun init_db probe;
  match token with
  | None => uemit (UiLogError "TELEGRAM_TOKEN not found in environment variables!")
  | Some tok =>
      if PyStr.truthy tok then
        urun ucall (UiUpdater tok) (updater tok);
        urun uemit UiAddHandlers;
        urun uemit (UiLogInfo "Starting LinkedIn Image Downloader Bot...");
        urun uemit UiStartPolling;
        uemit UiIdle
      else uemit (UiLogError "TELEGRAM_TOKEN not found in environment variables!")
  end.

(** The calls on the store, the browser and the chat of the extraction
    that a menu trace holds. *)
Fixpoint core_calls (t : list ui_event) : trace :=
  match t with
  | [] => []
  | UiCore ev :: rest => ev :: core_calls rest
  | _ :: rest => core_calls rest
  end.

(** A text or an edit of the menu. *)
Definition is_menu_text (ev : ui_event) : bool :=
  match ev with
  | UiReplyMenu _ _ | UiEditMenu _ _ => true
  | _ => false
  end.

Definition menu_ok : menu_chat :=
  {| mc_answer := None; mc_reply_text := fun _ => None;
     mc_edit_message_text := fun _ => None |}.
(** * Properties *)

(** ** Laws of the combinators *)

Section Laws.

Context {A B : Type}.

Lemma surjective_M (m : M A) : m = (result m, calls m).
Proof. by destruct m. Qed.

Lemma bind_ok (m : M A) (k : A -> M B) a t :
  m = (Ok a, t) -> bind m k = (result (k a), t ++ calls (k a)).
Proof. intros ->. unfold bind. by destruct (k a). Qed.

Lemma bind_raise (m : M A) (k : A -> M B) e t :
  m = (Raise e, t) -> bind m k = (Raise e, t).
Proof. by intros ->. Qed.

Lemma try_except_ok (m : M A) h a t :
  m = (Ok a, t) -> try_except m h = (Ok a, t).
Proof. by intros ->. Qed.

Lemma try_except_raise (m : M A) h e t :
  m = (Raise e, t) -> try_except m h = (result (h e), t ++ calls (h e)).
Proof. intros ->. unfold try_except. by destruct (h e). Qed.

Lemma calls_bind (m : M A) (k : A -> M B) :
  calls (bind m k)
  = calls m ++ match result m with Ok a => calls (k a) | Raise _ => [] end.
Proof.
  destruct m as [[a|e] t]; simpl.
  - unfold calls. by destruct (k a).
  - by rewrite app_nil_r.
Qed.

Lemma calls_try_except (m : M A) h :
  calls (try_except m h)
  = calls m ++ match result m with Ok _ => [] | Raise e => calls (h e) end.
Proof.
  destruct m as [[a|e] t]; simpl.
  - by rewrite app_nil_r.
  - unfold calls. by destruct (h e).
Qed.

Lemma calls_try_finally (m : M A) (fin : M unit) :
  calls (try_finally m fin) = calls m ++ calls fin.
Proof. by destruct m as [r t], fin as [[[]|e] t']. Qed.

Lemma result_try_finally (m : M A) (fin : M unit) :
  result (try_finally m fin)
  = match result fin with Ok _ => result m | Raise e => Raise e end.
Proof. by destruct m as [r t], fin as [[[]|e] t']. Qed.

(** A property of every call of a composed computation follows from
    the property of the calls of its parts. *)
Lemma Forall_calls_bind (P : event -> Prop) (m : M A) (k : A -> M B) :
  Forall P (calls m) ->
  (forall a, result m = Ok a -> Forall P (calls (k a))) ->
  Forall P (calls (bind m k)).
Proof.
  intros Hm Hk. rewrite calls_bind. apply Forall_app. split; [done|].
  destruct (result m); [by apply Hk | constructor].
Qed.

Lemma Forall_calls_try_except (P : event -> Prop) (m : M A) h :
  Forall P (calls m) -> (forall e, Forall P (calls (h e))) ->
  Forall P (calls (try_except m h)).
Proof.
  intros Hm Hh. rewrite calls_try_except. apply Forall_app. split; [done|].
  destruct (result m); [constructor | apply Hh].
Qed.

(** A handler that cannot raise makes the whole [try] unable to raise. *)
Lemma try_except_returns (m : M A) h :
  (forall e, exists a, result (h e) = Ok a) ->
  exists a, result (try_except m h) = Ok a.
Proof.
  intros Hh. destruct m as [[a|e] t]; simpl; [by exists a|].
  destruct (Hh e) as [a Ha]. exists a. by destruct (h e) as [r t']; simplify_eq/=.
Qed.

End Laws.

(** ** The denylist test is the case-insensitive substring test *)

Section Denylist.

Lemma prefix_cons a p c s :
  String.prefix (String a p) (String c s)
  = bool_decide (a = c) && String.prefix p s.
Proof.
  simpl. destruct (ascii_dec a c) as [->|Hne].
  - by rewrite bool_decide_eq_true_2.
  - by rewrite bool_decide_eq_false_2.
Qed.

Lemma prefix_empty s : String.prefix EmptyString s = true.
Proof. by destruct s. Qed.

Lemma is_upper_bounds a :
  PyStr.is_upper a = true <-> (65 <= PyStr.code a <= 90)%nat.
Proof.
  unfold PyStr.is_upper.
  rewrite andb_true_iff, !Nat.leb_le. lia.
Qed.

Lemma lower_ascii_upper a c :
  PyStr.is_upper a = true -> PyStr.code c = (PyStr.code a + 32)%nat ->
  PyStr.lower_ascii a = c /\ PyStr.lower_ascii c = c.
Proof.
  intros Ha Hc. unfold PyStr.lower_ascii. rewrite Ha. split.
  - rewrite <- Hc. apply ascii_nat_embedding.
  - apply is_upper_bounds in Ha.
    destruct (PyStr.is_upper c) eqn:Hu; [|done].
    apply is_upper_bounds in Hu. lia.
Qed.

Lemma eqb_nocase_lower a c :
  eqb_nocase a c = true -> PyStr.lower_ascii a = PyStr.lower_ascii c.
Proof.
  unfold eqb_nocase. rewrite !orb_true_iff, !andb_true_iff, !Nat.eqb_eq.
  intros [[H|[Ha Hc]]|[Hc Ha]].
  - apply Ascii.eqb_eq in H. by subst.
  - destruct (lower_ascii_upper a c Ha Hc) as [-> ->]. done.
  - destruct (lower_ascii_upper c a Hc Ha) as [-> ->]. done.
Qed.

(** Two characters that agree up to case are both ASCII or both not. *)
Lemma eqb_nocase_ascii a c :
  eqb_nocase a c = true -> PyStr.is_ascii_char a = true ->
  PyStr.is_ascii_char c = true.
Proof.
  unfold eqb_nocase, PyStr.is_ascii_char.
  rewrite !orb_true_iff, !andb_true_iff, !Nat.eqb_eq, !Nat.ltb_lt.
  intros [[H|[Ha Hc]]|[Hc Ha]] Hlt.
  - apply Ascii.eqb_eq in H. by subst.
  - apply is_upper_bounds in Ha. lia.
  - apply is_upper_bounds in Hc. lia.
Qed.

Lemma byte_bounded c : (PyStr.byte c < 256)%N.
Proof. apply N_ascii_bounded. Qed.

(** [lower] on a string that begins with an ASCII character. *)
Lemma lower_cons_ascii c s :
  PyStr.is_ascii_char c = true ->
  PyStr.lower (String c s) = String (PyStr.lower_ascii c) (PyStr.lower s).
Proof.
  intros H. unfold PyStr.lower. cbn [PyStr.chars]. rewrite H.
  cbn [map PyStr.join PyStr.lower_char].
  pose proof (byte_bounded c) as Hb.
  destruct (N.eqb_spec (PyStr.byte c) 0x212A) as [E|_]; [lia|].
  destruct (N.eqb_spec (PyStr.byte c) 0x130) as [E|_]; [lia|].
  reflexivity.
Qed.

Lemma is_cont_not_ascii c :
  PyStr.is_cont c = true -> PyStr.is_ascii_char c = false.
Proof.
  unfold PyStr.is_cont, PyStr.is_ascii_char, PyStr.byte, PyStr.code.
  rewrite andb_true_iff, N.leb_le, N.ltb_lt, Nat.ltb_ge.
  unfold nat_of_ascii. lia.
Qed.

Lemma point2_cont c1 c2 p :
  PyStr.point2 c1 c2 = Some p -> PyStr.is_ascii_char c2 = false.
Proof.
  unfold PyStr.point2. intros H.
  destruct (PyStr.is_cont c2) eqn:E; [by apply is_cont_not_ascii|].
  rewrite andb_false_r in H. done.
Qed.

Lemma point3_cont c1 c2 c3 p :
  PyStr.point3 c1 c2 c3 = Some p ->
  PyStr.is_ascii_char c2 = false /\ PyStr.is_ascii_char c3 = false.
Proof.
  unfold PyStr.point3. intros H.
  destruct (PyStr.is_cont c2) eqn:E2, (PyStr.is_cont c3) eqn:E3;
    rewrite ?andb_false_r, ?andb_false_l in H; try done.
  split; by apply is_cont_not_ascii.
Qed.

Lemma point4_cont c1 c2 c3 c4 p :
  PyStr.point4 c1 c2 c3 c4 = Some p ->
  PyStr.is_ascii_char c2 = false /\ PyStr.is_ascii_char c3 = false
  /\ PyStr.is_ascii_char c4 = false.
Proof.
  unfold PyStr.point4. intros H.
  destruct (PyStr.is_cont c2) eqn:E2, (PyStr.is_cont c3) eqn:E3,
    (PyStr.is_cont c4) eqn:E4;
    rewrite ?andb_false_r, ?andb_false_l in H; try done.
  repeat split; by apply is_cont_not_ascii.
Qed.

(** A match that ignores case is, after [lower], an exact one,
    when the pattern is ASCII and in lower case already. *)
Lemma prefix_nocase_lower p s :
  PyStr.is_ascii p = true -> PyStr.lower p = p -> prefix_nocase p s = true ->
  String.prefix p (PyStr.lower s) = true.
Proof.
  revert s. induction p as [|a p IH]; intros s Hasc Hp H.
  - apply prefix_empty.
  - destruct s as [|c s]; [done|].
    cbn [PyStr.is_ascii] in Hasc. apply andb_true_iff in Hasc as [Ha Hasc].
    rewrite (lower_cons_ascii a p Ha) in Hp. injection Hp as Hla Hp'.
    cbn [prefix_nocase] in H. apply andb_true_iff in H as [Hac H].
    rewrite (lower_cons_ascii c s (eqb_nocase_ascii a c Hac Ha)).
    rewrite prefix_cons. apply andb_true_iff. split.
    + apply bool_decide_eq_true. rewrite <- (eqb_nocase_lower _ _ Hac). done.
    + by apply IH.
Qed.

Lemma contains_app_r p x y :
  PyStr.contains p y = true -> PyStr.contains p (x +:+ y) = true.
Proof.
  intros H. induction x as [|c x IH]; [done|].
  change (String c x +:+ y) with (String c (x +:+ y)).
  cbn [PyStr.contains]. rewrite IH. apply orb_true_r.
Qed.

(** A pattern that begins with an ASCII character does not begin at a
    byte that is not one. *)
Lemma occurs_nocase_skip a p c r :
  PyStr.is_ascii_char a = true -> PyStr.is_ascii_char c = false ->
  occurs_nocase (String a p) (String c r) = true ->
  occurs_nocase (String a p) r = true.
Proof.
  intros Ha Hc H. cbn [occurs_nocase prefix_nocase] in H.
  apply orb_true_iff in H as [H|H]; [|done].
  apply andb_true_iff in H as [H _].
  rewrite (eqb_nocase_ascii a c H Ha) in Hc. done.
Qed.

Lemma occurs_nocase_lower p s :
  PyStr.is_ascii p = true -> PyStr.lower p = p -> occurs_nocase p s = true ->
  PyStr.contains p (PyStr.lower s) = true.
Proof.
  intros Hasc Hp. destruct p as [|a p].
  { intros _. destruct (PyStr.lower s); done. }
  assert (PyStr.is_ascii_char a = true) as Ha.
  { cbn [PyStr.is_ascii] in Hasc. by apply andb_true_iff in Hasc as [? _]. }
  remember (String.length s) as n eqn:Hn. revert s Hn.
  induction n as [n IH] using lt_wf_ind. intros s Hn H.
  destruct s as [|c1 r1].
  { apply orb_true_iff in H as [H|H]; [|done].
    apply orb_true_iff. left.
    by apply (prefix_nocase_lower (String a p) EmptyString). }
  assert (forall u r', (String.length r' < n)%nat ->
            occurs_nocase (String a p) r' = true ->
            PyStr.contains (String a p)
              (PyStr.join (map PyStr.lower_char (u :: PyStr.chars r'))) = true)
    as Hstep.
  { intros u r' Hlt Hr'. cbn [map PyStr.join]. apply contains_app_r.
    by apply (IH (String.length r') Hlt r'). }
  cbn [String.length] in Hn.
  pose proof H as H0.
  cbn [occurs_nocase] in H. apply orb_true_iff in H as [H|H].
  { unfold PyStr.contains. destruct (PyStr.lower (String c1 r1)) eqn:E;
      rewrite <- E; apply orb_true_iff; left;
      by apply prefix_nocase_lower. }
  destruct (PyStr.is_ascii_char c1) eqn:Hc1.
  { rewrite (lower_cons_ascii c1 r1 Hc1). cbn [PyStr.contains].
    apply orb_true_iff. right. apply (IH (String.length r1)); [lia|done|done]. }
  unfold PyStr.lower. cbn [PyStr.chars]. rewrite Hc1.
  destruct r1 as [|c2 r2]; [apply Hstep; [cbn [String.length] in *; lia|done]|].
  destruct (PyStr.point2 c1 c2) as [q|] eqn:E2.
  { apply Hstep; [cbn [String.length] in *; lia|].
    eapply occurs_nocase_skip; [done|by eapply point2_cont|done]. }
  destruct r2 as [|c3 r3]; [apply Hstep; [cbn [String.length] in *; lia|done]|].
  destruct (PyStr.point3 c1 c2 c3) as [q|] eqn:E3.
  { destruct (point3_cont _ _ _ _ E3) as [K2 K3].
    apply Hstep; [cbn [String.length] in *; lia|].
    eapply occurs_nocase_skip; [done|exact K3|].
    eapply occurs_nocase_skip; [done|exact K2|done]. }
  destruct r3 as [|c4 r4]; [apply Hstep; [cbn [String.length] in *; lia|done]|].
  destruct (PyStr.point4 c1 c2 c3 c4) as [q|] eqn:E4.
  { destruct (point4_cont _ _ _ _ _ E4) as (K2 & K3 & K4).
    apply Hstep; [cbn [String.length] in *; lia|].
    eapply occurs_nocase_skip; [done|exact K4|].
    eapply occurs_nocase_skip; [done|exact K3|].
    eapply occurs_nocase_skip; [done|exact K2|done]. }
  apply Hstep; [cbn [String.length] in *; lia|done].
Qed.

(** [chars] cuts the string and loses no byte. *)
Lemma join_chars s : PyStr.join (map snd (PyStr.chars s)) = s.
Proof.
  remember (String.length s) as n eqn:Hn. revert s Hn.
  induction n as [n IH] using lt_wf_ind. intros s Hn.
  destruct s as [|c1 r1]; [done|].
  assert (forall u r', (String.length r' < n)%nat ->
            PyStr.join (map snd (u :: PyStr.chars r')) = u.2 +:+ r') as Hc.
  { intros u r' Hlt. cbn [map PyStr.join]. f_equal.
    by apply (IH (String.length r') Hlt r'). }
  cbn [PyStr.chars String.length] in *.
  destruct (PyStr.is_ascii_char c1); [rewrite Hc; [done|lia]|].
  destruct r1 as [|c2 r2]; [rewrite Hc; [done|lia]|].
  cbn [String.length] in *.
  destruct (PyStr.point2 c1 c2); [rewrite Hc; [done|lia]|].
  destruct r2 as [|c3 r3]; [rewrite Hc; [done|cbn [String.length]; lia]|].
  cbn [String.length] in *.
  destruct (PyStr.point3 c1 c2 c3); [rewrite Hc; [done|lia]|].
  destruct r3 as [|c4 r4]; [rewrite Hc; [done|cbn [String.length]; lia]|].
  cbn [String.length] in *.
  destruct (PyStr.point4 c1 c2 c3 c4); rewrite Hc; (done || (cbn [String.length]; lia)).
Qed.

(** On an ASCII string [int] is the parser of the literal. *)
Lemma int_ascii s :
  PyStr.is_ascii s = true -> PyStr.int s = PyStr.parse_int s.
Proof.
  intros H. unfold PyStr.int.
  assert (PyStr.transform (PyStr.chars s) = Some s) as ->; [|done].
  induction s as [|c s IH]; [done|].
  cbn [PyStr.is_ascii] in H. apply andb_true_iff in H as [Hc H].
  cbn [PyStr.chars]. rewrite Hc. cbn [PyStr.transform PyStr.to_ascii].
  assert ((PyStr.byte c <? 0x80)%N = true) as ->.
  { apply N.ltb_lt. unfold PyStr.is_ascii_char, PyStr.code in Hc.
    apply Nat.ltb_lt in Hc. unfold PyStr.byte, nat_of_ascii in *. lia. }
  rewrite (IH H). cbn. unfold PyStr.byte. by rewrite ascii_N_embedding.
Qed.

Lemma exclude_patterns_lower pattern :
  pattern ∈ exclude_patterns ->
  PyStr.is_ascii pattern = true /\ PyStr.lower pattern = pattern.
Proof.
  unfold exclude_patterns. rewrite !elem_of_cons, elem_of_nil.
  intros H. repeat (destruct H as [->|H]; [split; reflexivity|]). done.
Qed.

Lemma denylisted_should_exclude src :
  denylisted src = true -> should_exclude src = true.
Proof.
  unfold denylisted, should_exclude. rewrite !existsb_exists.
  intros (p & Hin & Hp). exists p. split; [done|].
  destruct (exclude_patterns_lower p) as [Hasc Hlow];
    [by apply list_elem_of_In|].
  by apply occurs_nocase_lower.
Qed.

End Denylist.

(** ** The rounds of the scraper's loops *)

Section Rounds.

Lemma small_image_returns img :
  exists small, small_image img = (Ok small, []).
Proof.
  unfold small_image, py_int, from_option.
  destruct (el_width img) as [[w|]|?], (el_height img) as [[h|]|?];
    simpl; eauto;
    try destruct (PyStr.truthy w); try destruct (PyStr.truthy h); simpl; eauto;
    try destruct (PyStr.int w); simpl; eauto;
    try destruct (PyStr.int h); simpl; eauto.
Qed.

(** A round skips the element or appends its [src], whatever
    [images] is, and it never raises. *)
Lemma process_image_cases img :
  skips img \/ exists src, passes_url_checks img src /\ accepts img src.
Proof.
  unfold skips, accepts, process_image, passes_url_checks.
  destruct (el_src img) as [[src|]|?], (el_alt img) as [alt|?]; simpl; eauto.
  destruct (PyStr.truthy src) eqn:Ht; simpl; eauto.
  destruct (PyStr.startswith src "data:") eqn:Hd; simpl; eauto.
  destruct (should_exclude src) eqn:Hx; simpl; eauto.
  destruct (PyStr.startswith src "http") eqn:Hh; simpl; eauto.
  destruct (small_image_returns img) as [[|] ->]; simpl; eauto.
  right. exists src. eauto 10.
Qed.

Lemma accepts_not_skips img src : accepts img src -> skips img -> False.
Proof.
  intros Ha Hs. destruct (Hs []) as [t Ht]. rewrite (Ha []) in Ht.
  discriminate.
Qed.

Lemma accepts_inj img src src' : accepts img src -> accepts img src' -> src = src'.
Proof. intros H H'. specialize (H []). rewrite (H' []) in H. by simplify_eq. Qed.

Lemma main_pass_cons img rest images :
  main_pass (img :: rest) images
  = bind (process_image img images) (fun images' => main_pass rest images').
Proof. reflexivity. Qed.

(** The main loop appends to [images] the sources of the elements it
    accepts, in the order of the elements, and never raises. *)
Lemma main_pass_spec imgs :
  exists added,
    (forall images, exists t, main_pass imgs images = (Ok (images ++ added), t))
    /\ (forall x, x ∈ added <-> exists img, img ∈ imgs /\ accepts img x).
Proof.
  induction imgs as [|img imgs (added & Hrun & Hin)].
  - exists []. split.
    + intros images. exists []. by rewrite app_nil_r.
    + intros x. split; [by intros ?%elem_of_nil|].
      by intros (img & ?%elem_of_nil & _).
  - destruct (process_image_cases img) as [Hs | (src & Hp & Ha)].
    + exists added. split.
      * intros images. destruct (Hs images) as [t Ht].
        destruct (Hrun images) as (t' & Ht').
        exists (t ++ t').
        rewrite main_pass_cons, (bind_ok _ _ _ _ Ht). cbv beta. by rewrite Ht'.
      * intros x. rewrite Hin. split.
        -- intros (i & ? & ?). exists i. split; [by right|done].
        -- intros (i & [->|?]%elem_of_cons & Hacc); [|by eauto].
           destruct (accepts_not_skips _ _ Hacc Hs).
    + exists (src :: added). split.
      * intros images. destruct (Hrun (images ++ [src])) as (t' & Ht').
        exists t'. rewrite main_pass_cons, (bind_ok _ _ _ _ (Ha images)). cbv beta. rewrite Ht'.
        simpl.
        by rewrite <- app_assoc.
      * intros x. rewrite elem_of_cons, Hin. split.
        -- intros [->|(i & ? & ?)]; [exists img|exists i]; split; try done;
             [by left|by right].
        -- intros (i & [->|?]%elem_of_cons & Hacc); [|by eauto].
           left. by eapply accepts_inj.
Qed.

End Rounds.

(** ** The calls of the scraper *)

Ltac calls_step :=
  lazymatch goal with
  | |- Forall _ (calls (bind _ _)) => apply Forall_calls_bind; [|intros]
  | |- Forall _ (calls (try_except _ _)) => apply Forall_calls_try_except; [|intros]
  | |- Forall _ (calls (try_finally _ _)) =>
      rewrite calls_try_finally; apply Forall_app; split
  | |- Forall _ (calls (match ?x with _ => _ end)) => destruct x
  | |- Forall _ (calls _) => by (simpl; repeat constructor)
  end.

Ltac calls_auto := repeat (first [ by auto | calls_step ]).

Section ScraperCalls.

Variable b : browser.

Notation P := scraper_only.

Lemma scroll_loop_calls k todo : Forall P (calls (scroll_loop b k todo)).
Proof.
  revert k. induction todo as [|todo IH]; intros k; cbn [scroll_loop].
  - constructor.
  - unfold execute_script. calls_auto.
Qed.

Lemma debug_pass_calls imgs acc : Forall P (calls (debug_pass imgs acc)).
Proof.
  revert acc. induction imgs as [|img imgs IH]; intros acc; cbn [debug_pass].
  - constructor.
  - calls_auto.
Qed.

Lemma background_pass_calls els n : Forall P (calls (background_pass els n)).
Proof.
  revert n. induction els as [|el els IH]; intros n; cbn [background_pass].
  - constructor.
  - calls_auto.
Qed.

Lemma small_image_calls img : Forall P (calls (small_image img)).
Proof. destruct (small_image_returns img) as [sm ->]. constructor. Qed.

Lemma process_image_calls img images : Forall P (calls (process_image img images)).
Proof. unfold process_image. calls_auto. apply small_image_calls. Qed.

Lemma main_pass_calls imgs images : Forall P (calls (main_pass imgs images)).
Proof.
  revert images. induction imgs as [|img imgs IH]; intros images.
  - constructor.
  - rewrite main_pass_cons. calls_auto; auto using process_image_calls.
Qed.

Lemma scrape_calls url : Forall P (calls (scrape b url)).
Proof.
  unfold scrape, background_check. calls_auto;
    auto using scroll_loop_calls, debug_pass_calls, background_pass_calls,
      main_pass_calls.
Qed.

(** The scraper calls the browser, the clock and the log, nothing else. *)
Lemma extract_images_calls url : Forall P (calls (extract_images b url)).
Proof.
  unfold extract_images, session, chrome, execute_script.
  calls_auto. apply scrape_calls.
Qed.

End ScraperCalls.

(** ** Removing duplicates *)

Section Dedup.

Implicit Types (images unique_images : list string) (seen : gset string).

(** What was collected so far stays at the front. *)
Lemma dedup_loop_acc images seen unique_images :
  dedup_loop images seen unique_images
  = unique_images ++ dedup_loop images seen [].
Proof.
  revert seen unique_images.
  induction images as [|img rest IH]; intros seen acc; simpl.
  - by rewrite app_nil_r.
  - case_decide.
    + rewrite (IH _ (acc ++ [img])), (IH _ ([] ++ [img])).
      by rewrite <- app_assoc.
    + apply IH.
Qed.

Lemma dedup_loop_cons img rest seen :
  dedup_loop (img :: rest) seen []
  = if decide (img ∉ seen)
    then img :: dedup_loop rest ({[img]} ∪ seen) []
    else dedup_loop rest seen [].
Proof. simpl. case_decide; [|done]. by rewrite dedup_loop_acc. Qed.

Lemma elem_of_dedup_loop images seen x :
  x ∈ dedup_loop images seen [] <-> x ∈ images /\ x ∉ seen.
Proof.
  revert seen. induction images as [|img rest IH]; intros seen.
  - simpl. rewrite elem_of_nil. tauto.
  - rewrite dedup_loop_cons. case_decide as Hseen.
    + rewrite !elem_of_cons, IH, not_elem_of_union, not_elem_of_singleton.
      destruct (decide (x = img)) as [->|]; tauto.
    + rewrite !elem_of_cons, IH.
      destruct (decide (x = img)) as [->|]; tauto.
Qed.

Lemma NoDup_dedup_loop images seen : NoDup (dedup_loop images seen []).
Proof.
  revert seen. induction images as [|img rest IH]; intros seen.
  - constructor.
  - rewrite dedup_loop_cons. case_decide; [|apply IH].
    constructor; [|apply IH]. rewrite elem_of_dedup_loop.
    rewrite not_elem_of_union, not_elem_of_singleton. tauto.
Qed.

(** Of two entries of the result, the earlier one has an occurrence in
    [images] before every occurrence of the later one. *)
Lemma dedup_loop_order images seen i j x y :
  (i < j)%nat ->
  dedup_loop images seen [] !! i = Some x ->
  dedup_loop images seen [] !! j = Some y ->
  exists k, images !! k = Some x /\ y ∉ take (S k) images.
Proof.
  revert seen i j. induction images as [|img rest IH]; intros seen i j Hij Hx Hy.
  - done.
  - rewrite dedup_loop_cons in Hx, Hy. case_decide as Hseen.
    + destruct j as [|j]; [lia|]. simpl in Hy.
      assert (y ≠ img) as Hne.
      { apply list_elem_of_lookup_2, elem_of_dedup_loop in Hy.
        rewrite not_elem_of_union, not_elem_of_singleton in Hy. tauto. }
      destruct i as [|i]; simpl in Hx.
      * simplify_eq. exists 0%nat. split; [done|]. simpl.
        rewrite take_0, elem_of_cons, elem_of_nil. tauto.
      * destruct (IH _ i j ltac:(lia) Hx Hy) as (k & Hk & Hnot).
        exists (S k). split; [done|].
        change (take (S (S k)) (img :: rest)) with (img :: take (S k) rest).
        rewrite elem_of_cons. tauto.
    + assert (y ≠ img) as Hne.
      { apply list_elem_of_lookup_2, elem_of_dedup_loop in Hy.
        intros ->. destruct Hy as [_ Hy]. by apply Hy. }
      destruct (IH _ i j Hij Hx Hy) as (k & Hk & Hnot).
      exists (S k). split; [done|].
      change (take (S (S k)) (img :: rest)) with (img :: take (S k) rest).
      rewrite elem_of_cons. tauto.
Qed.

End Dedup.

(** ** The phases of [extract_images] *)

Section Phases.

Variable b : browser.
Variable post_url : string.

Lemma debug_pass_returns imgs acc :
  exists acc' t, debug_pass imgs acc = (Ok acc', t).
Proof.
  revert acc. induction imgs as [|img imgs IH]; intros acc; cbn [debug_pass].
  - by exists acc, [].
  - assert (exists acc1 t1,
      try_except
        (do src <- quiet (el_src img);
         do alt <- quiet (el_alt img);
         do width <- quiet (el_width img);
         do height <- quiet (el_height img);
         match src with
         | Some s => if PyStr.truthy s then ret (acc ++ [s]) else ret acc
         | None => ret acc
         end)
        (fun _ => run log_error "getting attributes"; ret acc)
      = (Ok acc1, t1)) as (acc1 & t1 & ->).
    { destruct (el_src img) as [[s|]|?], (el_alt img) as [?|?],
        (el_width img) as [?|?], (el_height img) as [?|?]; simpl; eauto;
        destruct (PyStr.truthy s); simpl; eauto. }
    destruct (IH acc1) as (acc' & t & Ht).
    exists acc', (t1 ++ t). by rewrite (bind_ok _ _ acc1 t1 eq_refl), Ht.
Qed.

Lemma background_pass_returns els n :
  exists n' t, background_pass els n = (Ok n', t).
Proof.
  revert n. induction els as [|el els IH]; intros n; cbn [background_pass].
  - by exists n, [].
  - assert (exists n1 t1,
      try_except
        (do style <- quiet (el_style el);
         match style with
         | Some s =>
             if PyStr.truthy s && PyStr.contains "background-image" s
                && PyStr.contains "url(" s
             then ret (S n) else ret n
         | None => ret n
         end)
        (fun _ => ret n)
      = (Ok n1, t1)) as (n1 & t1 & ->).
    { destruct (el_style el) as [[s|]|?]; simpl; eauto.
      destruct (PyStr.truthy s && PyStr.contains "background-image" s
                && PyStr.contains "url(" s); simpl; eauto. }
    destruct (IH n1) as (n' & t & Ht).
    exists n', (t1 ++ t). by rewrite (bind_ok _ _ n1 t1 eq_refl), Ht.
Qed.

Lemma background_check_returns : exists t, background_check b = (Ok tt, t).
Proof.
  unfold background_check. destruct (drv_all_elements b) as [els|e]; simpl; eauto.
  destruct (background_pass_returns (take 100 els) 0) as (n & t & ->).
  simpl. eauto.
Qed.

Lemma main_pass_returns imgs images :
  exists images' t, main_pass imgs images = (Ok images', t).
Proof.
  destruct (main_pass_spec imgs) as (added & Hrun & _).
  destruct (Hrun images) as [t Ht]. eauto.
Qed.

(** The page loads: the inner [try] yields the images of the page. *)
Lemma scrape_loaded :
  page_loads b post_url = true ->
  exists t, scrape b post_url = (Ok (images_of_page b), t).
Proof.
  unfold page_loads, images_of_page, scrape, execute_script, returns_.
  destruct (drv_get b post_url); [done|].
  destruct (drv_execute_script b 1) eqn:E1; [done|].
  destruct (drv_execute_script b 2) eqn:E2; [done|].
  destruct (drv_execute_script b 3) eqn:E3; [done|].
  destruct (drv_img_elements b) as [imgs|]; [|done]. intros _.
  cbn [scroll_loop]. unfold execute_script. rewrite E1, E2, E3.
  destruct (debug_pass_returns imgs []) as (acc & t1 & H1).
  destruct background_check_returns as (t2 & H2).
  destruct (main_pass_returns imgs []) as (images & t3 & H3).
  simpl. rewrite H1, H2, H3. simpl. eauto.
Qed.

(** The page does not load: the inner [try] raises. *)
Lemma scrape_failed :
  page_loads b post_url = false ->
  exists e t, scrape b post_url = (Raise e, t).
Proof.
  unfold page_loads, scrape, execute_script, returns_.
  destruct (drv_get b post_url); [simpl; by eauto|].
  cbn [scroll_loop]. unfold execute_script.
  destruct (drv_execute_script b 1) eqn:E1; [simpl; by eauto|].
  destruct (drv_execute_script b 2) eqn:E2; [simpl; by eauto|].
  destruct (drv_execute_script b 3) eqn:E3; [simpl; by eauto|].
  destruct (drv_img_elements b) as [imgs|]; [done|]. simpl. eauto.
Qed.

End Phases.

(** ** The session and what [extract_images] returns *)

Section Session.

Variable b : browser.
Variable post_url : string.

Lemma session_not_started :
  session_starts b = false ->
  exists e, result (session b post_url) = Raise e
            /\ EvQuit ∉ calls (session b post_url).
Proof.
  unfold session_starts, session, chrome, execute_script, returns_.
  destruct (drv_install b) as [e|]; simpl.
  { intros _. exists e. split; [done|]. rewrite !elem_of_cons, elem_of_nil. naive_solver. }
  destruct (drv_chrome b) as [e|]; simpl.
  { intros _. exists e. split; [done|]. rewrite !elem_of_cons, elem_of_nil. naive_solver. }
  destruct (drv_execute_script b 0) as [e|]; simpl; [|done].
  intros _. exists e. split; [done|].
  rewrite !elem_of_cons, elem_of_nil. naive_solver.
Qed.

(** Once the inner [try] is entered, [quit] is the last call of the
    session, and the session raises only if [quit] does. *)
Lemma session_started :
  session_starts b = true ->
  exists t,
    session b post_url
    = (match drv_quit b with
       | Some e => Raise e
       | None => Ok (if page_loads b post_url then images_of_page b else [])
       end,
       t ++ [EvQuit]).
Proof.
  unfold session_starts, session, chrome, execute_script, returns_.
  destruct (drv_install b); [done|]. destruct (drv_chrome b); [done|].
  destruct (drv_execute_script b 0); [done|]. intros _.
  destruct (page_loads b post_url) eqn:Hl.
  - destruct (scrape_loaded b post_url Hl) as [t ->].
    exists ([EvInstallDriver; EvSessionCreated; EvExecuteScript stealth_js] ++ t).
    by destruct (drv_quit b).
  - destruct (scrape_failed b post_url Hl) as (e & t & ->).
    exists ([EvInstallDriver; EvSessionCreated; EvExecuteScript stealth_js]
            ++ t ++ [EvLogError "Selenium error"]).
    destruct (drv_quit b); simpl; by rewrite <- !app_assoc.
Qed.

Lemma extract_images_result :
  result (extract_images b post_url)
  = Ok (match result (session b post_url) with
        | Ok images => unique images
        | Raise _ => []
        end).
Proof.
  unfold extract_images. by destruct (session b post_url) as [[images|e] t].
Qed.

(** What the main loop collected came from an element of the page that
    passed every test on its URL. *)
Lemma images_of_page_checks x :
  x ∈ images_of_page b ->
  exists imgs img, drv_img_elements b = Ok imgs /\ img ∈ imgs
                   /\ passes_url_checks img x /\ accepts img x.
Proof.
  unfold images_of_page. destruct (drv_img_elements b) as [imgs|]; [|by intros ?%elem_of_nil].
  destruct (main_pass_spec imgs) as (added & Hrun & Hin).
  destruct (Hrun []) as [t ->]. simpl. rewrite Hin.
  intros (img & Himg & Hacc). exists imgs, img.
  split; [done|]. split; [done|]. split; [|done].
  destruct (process_image_cases img) as [Hs|(src & Hp & Ha)].
  - destruct (accepts_not_skips _ _ Hacc Hs).
  - by rewrite (accepts_inj _ _ _ Hacc Ha).
Qed.

Lemma images_of_page_accepted imgs img x :
  drv_img_elements b = Ok imgs -> img ∈ imgs -> accepts img x ->
  x ∈ images_of_page b.
Proof.
  unfold images_of_page. intros -> Himg Hacc.
  destruct (main_pass_spec imgs) as (added & Hrun & Hin).
  destruct (Hrun []) as [t ->]. simpl. rewrite Hin. eauto.
Qed.

Lemma elem_of_unique images x : x ∈ unique images <-> x ∈ images.
Proof.
  unfold unique. rewrite elem_of_dedup_loop.
  split; [tauto|]. intros H. split; [done|]. apply not_elem_of_empty.
Qed.

(** Every URL returned belongs to an element that passed the tests. *)
Lemma extract_images_sound out x :
  result (extract_images b post_url) = Ok out -> x ∈ out ->
  exists imgs img, drv_img_elements b = Ok imgs /\ img ∈ imgs
                   /\ passes_url_checks img x /\ accepts img x.
Proof.
  rewrite extract_images_result. intros [= <-] Hx.
  destruct (session_starts b) eqn:Hs.
  - destruct (session_started Hs) as [t Ht]. rewrite Ht in Hx. simpl in Hx.
    destruct (drv_quit b); [by apply elem_of_nil in Hx|].
    rewrite elem_of_unique in Hx.
    destruct (page_loads b post_url); [|by apply elem_of_nil in Hx].
    by apply images_of_page_checks.
  - destruct (session_not_started Hs) as (e & He & _). rewrite He in Hx.
    by apply elem_of_nil in Hx.
Qed.

End Session.

(** ** The calls of the store helpers and of the handler *)

Section StoreCalls.

Variable db : supabase.

Lemma get_or_create_user_calls u :
  Forall no_extraction (calls (get_or_create_user db u)).
Proof. unfold get_or_create_user, set_user_context. calls_auto. Qed.

Lemma get_or_create_user_returns u :
  exists r, result (get_or_create_user db u) = Ok r.
Proof. apply try_except_returns. intros e. by exists None. Qed.

Lemma get_today_usage_ok user_id data :
  usage_select_today db user_id = Ok data ->
  get_today_usage db user_id = (Ok (length data), [EvSelectUsage user_id]).
Proof. intros H. unfold get_today_usage. by rewrite H. Qed.

(** A failing query counts as no usage at all. *)
Lemma get_today_usage_raise user_id e :
  usage_select_today db user_id = Raise e ->
  get_today_usage db user_id
  = (Ok 0%nat, [EvSelectUsage user_id; EvLogError "get_today_usage"]).
Proof. intros H. unfold get_today_usage. by rewrite H. Qed.

Lemma get_today_usage_positive user_id n :
  result (get_today_usage db user_id) = Ok n -> (0 < n)%nat ->
  get_today_usage db user_id = (Ok n, [EvSelectUsage user_id]).
Proof.
  destruct (usage_select_today db user_id) as [data|e] eqn:H.
  - rewrite (get_today_usage_ok _ _ H). by intros [= <-].
  - rewrite (get_today_usage_raise _ _ H). intros [= <-]. lia.
Qed.

Lemma log_usage_calls user_id url n :
  exists t, calls (log_usage db user_id url n) = EvInsertUsage user_id url n :: t
            /\ Forall (fun ev => exists w, ev = EvLogError w) t.
Proof.
  unfold log_usage. destruct (usage_insert db user_id url n); simpl.
  - exists []. by split.
  - exists [EvLogError "log_usage"]. split; [done|]. repeat constructor. eauto.
Qed.

Lemma log_usage_returns user_id url n :
  exists r, result (log_usage db user_id url n) = Ok r.
Proof. apply try_except_returns. intros e. by exists None. Qed.

End StoreCalls.

Lemma filter_none {A} (p : A -> bool) (l : list A) :
  Forall (fun x => p x = false) l -> List.filter p l = [].
Proof. induction 1 as [|x l Hx _ IH]; simpl; [done|]. by rewrite Hx. Qed.

Section SendLoop.

Variable tg : telegram.

(** One round: one media send, counted as sent or as failed. *)
Lemma send_one_spec n i image_url s f :
  exists t,
    send_one tg n i image_url s f
    = (Ok (if media_sent tg n i image_url then (s + 1, f) else (s, f + 1))%nat,
       EvSendPhoto image_url (MsgCaption (i + 1) n) :: t)
    /\ Forall (fun ev => is_send_photo ev = false /\ is_usage_write ev = false
                         /\ is_browser_call ev = false) t.
Proof.
  unfold send_one, media_sent, send_photo, send_message, returns_.
  destruct (tg_send_photo tg image_url (MsgCaption (i + 1) n)); simpl.
  - destruct (tg_send_message tg (MsgDirectLink (i + 1) image_url)); simpl;
      eexists; (split; [reflexivity|]); repeat constructor.
  - eexists; (split; [reflexivity|]); repeat constructor.
Qed.

Lemma send_loop_cons n i image_url rest s f :
  send_loop tg n i (image_url :: rest) s f
  = bind (send_one tg n i image_url s f)
         (fun x => let '(s', f') := x in send_loop tg n (S i) rest s' f').
Proof. reflexivity. Qed.

(** The loop never raises; it counts every image once, as sent or as
    failed, and sends the media in the order of the list. *)
Lemma send_loop_spec n images : forall i s f,
  result (send_loop tg n i images s f)
  = Ok (s + count_media tg n i images true,
        f + count_media tg n i images false)%nat
  /\ List.filter is_send_photo (calls (send_loop tg n i images s f))
     = attempts n i images
  /\ Forall (fun ev => is_usage_write ev = false /\ is_browser_call ev = false)
            (calls (send_loop tg n i images s f)).
Proof.
  induction images as [|image_url rest IH]; intros i s f.
  - simpl. rewrite !Nat.add_0_r. by repeat split.
  - rewrite send_loop_cons.
    destruct (send_one_spec n i image_url s f) as (t & Hone & Ht).
    rewrite (bind_ok _ _ _ _ Hone). cbv beta.
    destruct (media_sent tg n i image_url) eqn:Hm.
    + destruct (IH (S i) (s + 1)%nat f) as (Hr & Hc & Hu).
      cbn [count_media attempts]. rewrite Hm. simpl. rewrite Hr.
      split; [f_equal; f_equal; lia|]. split.
      * simpl. f_equal. rewrite List.filter_app, Hc, filter_none; [done|].
        eapply Forall_impl; [apply Ht|]. simpl. tauto.
      * constructor; [done|]. apply Forall_app. split; [|done].
        eapply Forall_impl; [apply Ht|]. simpl. tauto.
    + destruct (IH (S i) s (f + 1)%nat) as (Hr & Hc & Hu).
      cbn [count_media attempts]. rewrite Hm. simpl. rewrite Hr.
      split; [f_equal; f_equal; lia|]. split.
      * simpl. f_equal. rewrite List.filter_app, Hc, filter_none; [done|].
        eapply Forall_impl; [apply Ht|]. simpl. tauto.
      * constructor; [done|]. apply Forall_app. split; [|done].
        eapply Forall_impl; [apply Ht|]. simpl. tauto.
Qed.

Lemma count_media_total n images : forall i,
  (count_media tg n i images true + count_media tg n i images false
   = length images)%nat.
Proof.
  induction images as [|image_url rest IH]; intros i; [done|].
  cbn [count_media length]. specialize (IH (S i)).
  destruct (media_sent tg n i image_url); simpl; lia.
Qed.

End SendLoop.

Section HandlerCalls.

Variable db : supabase.
Variable b : browser.
Variable tg : telegram.

Lemma take_10_nonempty (found : list string) :
  found ≠ [] -> (0 < length (take 10 found))%nat.
Proof. destruct found; [done|]. simpl. lia. Qed.

(** The delivery, once the status text is out: the counters, and the
    calls in their order (status text, sending loop, usage log). *)
Lemma deliver_spec user_id url found :
  found ≠ [] ->
  tg_edit_text tg (MsgFound (length (take 10 found))) = None ->
  let images := take 10 found in
  let n := length images in
  let s := count_media tg n 0 images true in
  let f := count_media tg n 0 images false in
  result (deliver db tg user_id url found) = Ok (s, f)
  /\ calls (deliver db tg user_id url found)
     = EvEditText (MsgFound n) :: calls (send_loop tg n 0 images 0 0)
       ++ calls (log_usage db user_id url s).
Proof.
  intros Hne Hedit. cbv zeta. unfold deliver, edit_text.
  pose proof (take_10_nonempty found Hne) as Hlen.
  set (images := take 10 found) in *. set (n := length images) in *.
  destruct (send_loop_spec tg n images 0 0 0) as (Hr & _ & _).
  pose proof (count_media_total tg n images 0) as Htot.
  set (s := count_media tg n 0 images true) in *.
  set (f := count_media tg n 0 images false) in *. simpl in Hr.
  assert ((0 <? s)%nat || (0 <? f)%nat = true) as Hcond.
  { apply orb_true_iff. rewrite !Nat.ltb_lt. lia. }
  rewrite Hedit.
  rewrite (bind_ok _ _ tt [EvEditText (MsgFound n)] eq_refl). cbv beta.
  rewrite (bind_ok _ _ (s, f) (calls (send_loop tg n 0 images 0 0)));
    [|by rewrite (surjective_M (send_loop tg n 0 images 0 0)), Hr].
  cbv beta iota. rewrite Hcond.
  destruct (log_usage_returns db user_id url s) as [r Hlog].
  destruct (log_usage db user_id url s) as [lr lt] eqn:Hl. simpl in Hlog. subst lr.
  simpl. rewrite !app_nil_r. done.
Qed.

Lemma extract_images_begins url :
  exists t, calls (extract_images b url) = EvInstallDriver :: t.
Proof.
  unfold extract_images, session.
  rewrite calls_try_except, !calls_bind. simpl. eauto.
Qed.

(** The part of the handler inside its [try] starts the scraper. *)
Lemma process_begins user_id today_usage url :
  exists t, calls (process db b tg user_id today_usage url) = EvInstallDriver :: t.
Proof.
  unfold process. destruct (extract_images_begins url) as [t Ht].
  rewrite calls_try_except, calls_bind, Ht. simpl. eauto.
Qed.

Lemma scraper_call_no_usage_write ev :
  is_scraper_call ev = true -> is_usage_write ev = false.
Proof. by destruct ev. Qed.

(** A request whose extraction returns no image never reaches the
    usage log. *)
Lemma process_no_images user_id today_usage url :
  result (extract_images b url) = Ok [] ->
  Forall (fun ev => is_usage_write ev = false)
         (calls (process db b tg user_id today_usage url)).
Proof.
  intros Hex. unfold process. apply Forall_calls_try_except.
  - apply Forall_calls_bind.
    + eapply Forall_impl; [apply extract_images_calls|].
      apply scraper_call_no_usage_write.
    + intros images Himages. rewrite Hex in Himages. simplify_eq.
      unfold edit_text. by repeat constructor.
  - intros e. unfold edit_text. calls_auto.
Qed.

Lemma handle_url_no_images user text :
  result (extract_images b (PyStr.strip text)) = Ok [] ->
  Forall (fun ev => is_usage_write ev = false)
         (calls (handle_url db b tg user text)).
Proof.
  intros Hex. unfold handle_url. apply Forall_calls_bind.
  - eapply Forall_impl; [apply get_or_create_user_calls|].
    unfold no_extraction. tauto.
  - intros [db_user|] _; [|unfold reply_text; by repeat constructor].
    apply Forall_calls_bind; [unfold get_today_usage; calls_auto|].
    intros today_usage _.
    destruct (5 <=? today_usage)%nat; [unfold reply_text; by repeat constructor|].
    destruct (negb _); [unfold reply_text; by repeat constructor|].
    apply Forall_calls_bind; [unfold reply_text; by repeat constructor|].
    intros _ _. by apply process_no_images.
Qed.

End HandlerCalls.

(** ** The string functions on examples *)

Example lower_mixed : PyStr.lower "HTTPS://Media.LICDN.com/Logo_1.PNG" = "https://media.licdn.com/logo_1.png".
Proof. reflexivity. Qed.
Example contains_mid : PyStr.contains "icon" "https://x/favicon.ico" = true.
Proof. reflexivity. Qed.
Example contains_no : PyStr.contains "logo" "https://x/photo.jpg" = false.
Proof. reflexivity. Qed.
Example strip_both : PyStr.strip "  https://www.linkedin.com/posts/x  " = "https://www.linkedin.com/posts/x".
Proof. reflexivity. Qed.
Example int_plain : PyStr.int "120" = Some 120%Z.
Proof. reflexivity. Qed.
Example int_blank : PyStr.int " 49 " = Some 49%Z.
Proof. reflexivity. Qed.
Example int_sign : PyStr.int "-3" = Some (-3)%Z.
Proof. reflexivity. Qed.
Example int_group : PyStr.int "1_000" = Some 1000%Z.
Proof. reflexivity. Qed.
Example int_px : PyStr.int "120px" = None.
Proof. reflexivity. Qed.
Example int_empty : PyStr.int EmptyString = None.
Proof. reflexivity. Qed.
Example int_trailing_underscore : PyStr.int "1_" = None.
Proof. reflexivity. Qed.

(** Outside ASCII. *)
Example lower_kelvin : PyStr.lower kelvin_url = "https://linkedin.com/in/p.jpg".
Proof. reflexivity. Qed.
Example strip_no_break_space : PyStr.strip (no_break_space +:+ post +:+ " " +:+ no_break_space) = post.
Proof. reflexivity. Qed.
Example strip_inner_kept : PyStr.strip ("a" +:+ no_break_space +:+ "b ") = "a" +:+ no_break_space +:+ "b".
Proof. reflexivity. Qed.
Example slice_characters : PyStr.slice_to 3 (fullwidth_40 +:+ "px") = fullwidth_40 +:+ "p".
Proof. reflexivity. Qed.
Example int_fullwidth : PyStr.int fullwidth_40 = Some 40%Z.
Proof. reflexivity. Qed.
Example int_mixed_digits : PyStr.int ("4" +:+ fullwidth_40 +:+ no_break_space) = Some 440%Z.
Proof. reflexivity. Qed.
Example int_kelvin : PyStr.int ("4" +:+ kelvin_sign) = None.
Proof. reflexivity. Qed.

(** The limit on the digits of a literal. *)
Example int_digit_limit :
  (exists n, PyStr.int (ones 4300) = Some n) /\ PyStr.int (ones 4301) = None.
Proof. split; [eexists|]; vm_compute; reflexivity. Qed.


(** ** The texts and the filter on examples *)

Example caption_text : text_of (MsgCaption 2 3) = "🖼️ Image 2/3".
Proof. reflexivity. Qed.
Example denylist_upper : denylisted company_logo = true.
Proof. reflexivity. Qed.
Example denylist_plain : should_exclude photo_a = false.
Proof. reflexivity. Qed.
Example denylist_kelvin :
  should_exclude kelvin_url = true /\ denylisted kelvin_url = false.
Proof. split; reflexivity. Qed.
Example page_of_three :
  result (extract_images (healthy_browser [thumb; unsized; logo_img]) post)
  = Ok [photo_b].
Proof. vm_compute. reflexivity. Qed.
Example fullwidth_sized_skipped :
  result (extract_images (healthy_browser [fullwidth_sized]) post) = Ok [].
Proof. vm_compute. reflexivity. Qed.
Example long_width_returned :
  result (extract_images (healthy_browser [long_width]) post) = Ok [photo_c].
Proof. vm_compute. reflexivity. Qed.
Example usage_logged_for_stripped_text :
  List.filter is_usage_write
    (calls (handle_url (store_with 0) (healthy_browser [unsized]) chat_ok alice
              (post +:+ no_break_space)))
  = [EvInsertUsage 7 post 1].
Proof. vm_compute. reflexivity. Qed.


(** * The claims about the extractor *)

(** C1. An image element whose source URL contains one of the denylist
    substrings, the case of letters ignored, is left out by the
    extractor whatever its width and height are: the round of the main
    loop skips it, and its URL is not in the list [extract_images]
    returns. *)
Theorem denylisted_source_excluded (b : browser) (post_url : string)
    (img : element) (src : string) :
  el_src img = Ok (Some src) ->
  denylisted src = true ->
  skips img
  /\ forall out, result (extract_images b post_url) = Ok out -> src ∉ out.
Proof.
  intros Hsrc Hdeny. apply denylisted_should_exclude in Hdeny. split.
  - destruct (process_image_cases img) as [Hs|(src' & Hp & _)]; [done|].
    destruct Hp as (Hsrc' & _ & _ & _ & Hx & _).
    rewrite Hsrc in Hsrc'. simplify_eq. congruence.
  - intros out Hout Hin.
    destruct (extract_images_sound b post_url out src Hout Hin)
      as (imgs & img' & _ & _ & Hp & _).
    destruct Hp as (_ & _ & _ & _ & Hx & _). congruence.
Qed.

Lemma denylisted_source_excluded_witness :
  skips logo_img
  /\ forall out,
       result (extract_images (healthy_browser [logo_img; unsized]) post) = Ok out ->
       company_logo ∉ out.
Proof.
  apply (denylisted_source_excluded (healthy_browser [logo_img; unsized]) post
           logo_img company_logo); reflexivity.
Defined.

(** C2. For an image element that passed the denylist and absolute-URL
    tests: when width and height are both known and one of them is
    below 50, the element is skipped; when one of the two is unknown,
    the element is accepted. *)
Theorem size_filter (img : element) (src : string) :
  passes_url_checks img src ->
  (forall w h,
      dimension_known (el_width img) w -> dimension_known (el_height img) h ->
      (w < 50 \/ h < 50)%Z -> skips img)
  /\ (dimension_unknown (el_width img) \/ dimension_unknown (el_height img) ->
      accepts img src).
Proof.
  intros (Hsrc & [alt Halt] & Ht & Hd & Hx & Hh). split.
  - intros w h (ws & Hw & Hwi) (hs & Hhh & Hhi) Hsmall images.
    unfold process_image, small_image, py_int, from_option.
    rewrite Hsrc, Halt, Hw, Hhh. simpl. rewrite Ht, Hd, Hx, Hh. simpl.
    assert (PyStr.truthy ws = true) as ->.
    { destruct ws; [|done]. discriminate Hwi. }
    assert (PyStr.truthy hs = true) as ->.
    { destruct hs; [|done]. discriminate Hhi. }
    simpl. rewrite Hwi, Hhi. simpl.
    assert ((w <? 50)%Z || (h <? 50)%Z = true) as ->.
    { apply orb_true_iff. rewrite !Z.ltb_lt. lia. }
    eauto.
  - intros Hunk images.
    unfold process_image, small_image, py_int, from_option.
    rewrite Hsrc, Halt. simpl. rewrite Ht, Hd, Hx, Hh. simpl.
    destruct Hunk as [[Hw|Hw]|[Hhh|Hhh]]; rewrite ?Hw, ?Hhh; simpl.
    + by destruct (el_height img) as [[?|]|?].
    + by destruct (el_height img) as [[?|]|?].
    + destruct (el_width img) as [[ws|]|?]; simpl; try done.
      by destruct (PyStr.truthy ws).
    + destruct (el_width img) as [[ws|]|?]; simpl; try done.
      by destruct (PyStr.truthy ws).
Qed.

Lemma thumb_checks : passes_url_checks thumb photo_a.
Proof. repeat split. by exists (Some EmptyString). Defined.

Lemma unsized_checks : passes_url_checks unsized photo_b.
Proof. repeat split. by exists (Some EmptyString). Defined.

Lemma size_filter_witness : skips thumb /\ accepts unsized photo_b.
Proof.
  split.
  - apply (proj1 (size_filter thumb photo_a thumb_checks) 40%Z 300%Z).
    + exists "40". split; reflexivity.
    + exists "300". split; reflexivity.
    + left. reflexivity.
  - apply (proj2 (size_filter unsized photo_b unsized_checks)).
    left. left. reflexivity.
Defined.

(** The threshold is strict: an element of 50x50 or more is accepted. *)
Lemma size_filter_large (img : element) (src : string) w h :
  passes_url_checks img src ->
  dimension_known (el_width img) w -> dimension_known (el_height img) h ->
  (50 <= w)%Z -> (50 <= h)%Z -> accepts img src.
Proof.
  intros (Hsrc & [alt Halt] & Ht & Hd & Hx & Hh) (ws & Hw & Hwi) (hs & Hhh & Hhi)
    Hwb Hhb images.
  unfold process_image, small_image, py_int, from_option.
  rewrite Hsrc, Halt, Hw, Hhh. simpl. rewrite Ht, Hd, Hx, Hh. simpl.
  assert (PyStr.truthy ws = true) as ->.
  { destruct ws; [|done]. discriminate Hwi. }
  assert (PyStr.truthy hs = true) as ->.
  { destruct hs; [|done]. discriminate Hhi. }
  simpl. rewrite Hwi, Hhi. simpl.
  assert ((w <? 50)%Z || (h <? 50)%Z = false) as ->; [|done].
  apply orb_false_iff. rewrite !Z.ltb_ge. lia.
Qed.

(** An element the main loop accepts has its URL in the returned list
    when the session runs from start to end. *)
Lemma accepted_source_returned (b : browser) (post_url : string) imgs img src :
  session_starts b && page_loads b post_url && session_closes b = true ->
  drv_img_elements b = Ok imgs -> img ∈ imgs -> accepts img src ->
  exists out, result (extract_images b post_url) = Ok out /\ src ∈ out.
Proof.
  rewrite !andb_true_iff. intros [[Hs Hl] Hq] Himgs Hin Hacc.
  rewrite extract_images_result. destruct (session_started b post_url Hs) as [t ->].
  unfold session_closes, returns_ in Hq. destruct (drv_quit b); [done|].
  rewrite Hl. simpl. eexists. split; [done|].
  apply elem_of_unique. by eapply images_of_page_accepted.
Qed.

(** C6. [extract_images] never raises: for every browser and every URL
    it returns a list.  The list is empty when the driver cannot be
    installed or started, when a script, the navigation or the
    enumeration of the images raises, and when [quit] raises; otherwise
    it is the images of the page without duplicates.  An element whose
    [src] or [alt] cannot be read is skipped. *)
Theorem extract_images_never_raises (b : browser) (post_url : string) :
  exists out,
    result (extract_images b post_url) = Ok out
    /\ (session_starts b && page_loads b post_url && session_closes b = false ->
        out = [])
    /\ (session_starts b && page_loads b post_url && session_closes b = true ->
        out = unique (images_of_page b))
    /\ (forall img e, el_src img = Raise e \/ el_alt img = Raise e -> skips img).
Proof.
  rewrite extract_images_result. eexists. split; [done|].
  unfold session_closes, returns_. repeat split.
  - destruct (session_starts b) eqn:Hs.
    + destruct (session_started b post_url Hs) as [t ->]. simpl.
      destruct (drv_quit b); [done|].
      destruct (page_loads b post_url); [done|]. reflexivity.
    + destruct (session_not_started b post_url Hs) as (e & -> & _). done.
  - rewrite !andb_true_iff. intros [[Hs Hl] Hq].
    destruct (session_started b post_url Hs) as [t ->]. simpl.
    destruct (drv_quit b); [done|]. by rewrite Hl.
  - intros img e Hraise images. unfold process_image.
    destruct Hraise as [->| ->]; simpl; eauto.
    destruct (el_src img) as [[?|]|?]; simpl; eauto.
Qed.

Lemma extract_images_never_raises_witness :
  exists out,
    result (extract_images (first_script_fails [unsized]) post) = Ok out
    /\ (session_starts (first_script_fails [unsized])
        && page_loads (first_script_fails [unsized]) post
        && session_closes (first_script_fails [unsized]) = false -> out = [])
    /\ (session_starts (first_script_fails [unsized])
        && page_loads (first_script_fails [unsized]) post
        && session_closes (first_script_fails [unsized]) = true ->
        out = unique (images_of_page (first_script_fails [unsized])))
    /\ (forall img e, el_src img = Raise e \/ el_alt img = Raise e -> skips img).
Proof. apply (extract_images_never_raises (first_script_fails [unsized]) post). Defined.

(** C8. The list [extract_images] returns holds every URL the main loop
    accepted exactly once, and in the order of the first occurrences:
    of two entries, the earlier one occurs in the accepted sequence
    before every occurrence of the later one. *)
Theorem dedup_first_seen (b : browser) (post_url : string)
    (images : list string) (t : trace) :
  session b post_url = (Ok images, t) ->
  exists out,
    result (extract_images b post_url) = Ok out
    /\ NoDup out
    /\ (forall x, x ∈ out <-> x ∈ images)
    /\ (forall i j x y, (i < j)%nat -> out !! i = Some x -> out !! j = Some y ->
          exists k, images !! k = Some x /\ y ∉ take (S k) images).
Proof.
  intros Hs. exists (unique images). rewrite extract_images_result, Hs.
  split; [done|]. split; [apply NoDup_dedup_loop|].
  split; [apply elem_of_unique|].
  intros i j x y. apply dedup_loop_order.
Qed.

Lemma dedup_first_seen_witness :
  exists out,
    result (extract_images (healthy_browser repeated_page) post) = Ok out
    /\ NoDup out
    /\ (forall x, x ∈ out <-> x ∈ [photo_a; photo_b; photo_a; photo_c])
    /\ (forall i j x y, (i < j)%nat -> out !! i = Some x -> out !! j = Some y ->
          exists k, [photo_a; photo_b; photo_a; photo_c] !! k = Some x
                    /\ y ∉ take (S k) [photo_a; photo_b; photo_a; photo_c]).
Proof.
  eapply (dedup_first_seen (healthy_browser repeated_page) post).
  reflexivity.
Defined.

(** On the page that shows one image twice, the image is returned once,
    at the place of its first occurrence. *)
Example dedup_repeated_page :
  result (extract_images (healthy_browser repeated_page) post)
  = Ok [photo_a; photo_b; photo_c].
Proof. vm_compute. reflexivity. Qed.

(** C5. When the first [execute_script], which runs between the
    creation of the session and the inner [try], raises, [extract_images]
    returns with the session created and [quit] never called. *)
Theorem session_left_open_when_first_script_raises :
  extract_images (first_script_fails [unsized]) post
  = (Ok [], [ EvInstallDriver; EvSessionCreated; EvExecuteScript stealth_js;
              EvLogError "extract_images" ])
  /\ EvSessionCreated ∈ calls (extract_images (first_script_fails [unsized]) post)
  /\ EvQuit ∉ calls (extract_images (first_script_fails [unsized]) post).
Proof.
  split; [reflexivity|]. split.
  - apply list_elem_of_In. vm_compute. tauto.
  - intros H%list_elem_of_In. vm_compute in H.
    repeat (destruct H as [H|H]; [discriminate H|]). done.
Qed.

(** The same for every browser: a session that was created and whose
    first script raises is never quit. *)
Lemma session_left_open (b : browser) (post_url : string) e :
  drv_install b = None -> drv_chrome b = None ->
  drv_execute_script b 0 = Some e ->
  extract_images b post_url
  = (Ok [], [ EvInstallDriver; EvSessionCreated; EvExecuteScript stealth_js;
              EvLogError "extract_images" ]).
Proof.
  intros Hi Hc He. unfold extract_images, session, chrome, execute_script.
  by rewrite Hi, Hc, He.
Qed.

(** From the inner [try] on, the session is always quit: once the first
    script has returned, [quit] is the last call on the browser. *)
Lemma session_quit_once_started (b : browser) (post_url : string) :
  session_starts b = true ->
  exists t, calls (session b post_url) = t ++ [EvQuit].
Proof.
  intros Hs. destruct (session_started b post_url Hs) as [t ->]. by exists t.
Qed.

(** * The claims about the handler *)

(** C3. A request of a user whose usage count for today, as
    [get_today_usage] reports it, is 5 or more is answered with the
    limit-reached text and nothing else: after the look-up of the user
    and the count, the only call is that reply; no browser call, no
    delivery and no write to the usage log is made. *)
Theorem quota_gate (db : supabase) (b : browser) (tg : telegram)
    (user : chat_user) (text : string) (db_user : user_row) (t0 : trace)
    (today_usage : nat) :
  get_or_create_user db user = (Ok (Some db_user), t0) ->
  result (get_today_usage db (row_id db_user)) = Ok today_usage ->
  (5 <= today_usage)%nat ->
  handle_url db b tg user text
  = (match tg_reply_text tg MsgLimitReached with
     | None => Ok tt
     | Some e => Raise e
     end,
     t0 ++ [EvSelectUsage (row_id db_user); EvReplyText MsgLimitReached])
  /\ Forall no_extraction (calls (handle_url db b tg user text)).
Proof.
  intros Huser Husage Hlimit.
  pose proof (get_today_usage_positive db _ _ Husage ltac:(lia)) as Hq.
  assert (handle_url db b tg user text
          = (match tg_reply_text tg MsgLimitReached with
             | None => Ok tt
             | Some e => Raise e
             end,
             t0 ++ [EvSelectUsage (row_id db_user); EvReplyText MsgLimitReached]))
    as Heq.
  { unfold handle_url. rewrite (bind_ok _ _ _ _ Huser). cbv beta iota.
    rewrite (bind_ok _ _ _ _ Hq). cbv beta.
    apply Nat.leb_le in Hlimit. rewrite Hlimit. unfold reply_text. simpl.
    done. }
  split; [done|]. rewrite Heq. simpl. apply Forall_app. split.
  - pose proof (get_or_create_user_calls db user) as Hc. by rewrite Huser in Hc.
  - by repeat constructor.
Qed.

Lemma quota_gate_witness :
  handle_url (store_with 5) (healthy_browser [unsized]) chat_ok alice post
  = (Ok tt,
     [EvRpcSetUserContext 1001; EvSelectUser 1001; EvUpdateLastActive 1001]
     ++ [EvSelectUsage 7; EvReplyText MsgLimitReached])
  /\ Forall no_extraction
       (calls (handle_url (store_with 5) (healthy_browser [unsized]) chat_ok
                 alice post)).
Proof.
  apply (quota_gate (store_with 5) (healthy_browser [unsized]) chat_ok alice post
           alice_row
           [EvRpcSetUserContext 1001; EvSelectUser 1001; EvUpdateLastActive 1001]
           5).
  - reflexivity.
  - reflexivity.
  - lia.
Defined.

(** C4. For a list of candidates that is not empty, once the status
    text is out: the success count is the number of images whose media
    send returned, the failure count the number of images whose media
    send raised (what becomes of the fallback text does not enter
    either), and the usage log is written exactly once, after the loop,
    with the success count.  A request whose extraction yields no image
    writes nothing to the usage log. *)
Theorem delivery_counts (db : supabase) (b : browser) (tg : telegram) :
  (forall user_id url found,
      found ≠ [] ->
      tg_edit_text tg (MsgFound (length (take 10 found))) = None ->
      let images := take 10 found in
      let n := length images in
      let s := count_media tg n 0 images true in
      let f := count_media tg n 0 images false in
      result (deliver db tg user_id url found) = Ok (s, f)
      /\ calls (deliver db tg user_id url found)
         = EvEditText (MsgFound n) :: calls (send_loop tg n 0 images 0 0)
           ++ calls (log_usage db user_id url s)
      /\ List.filter is_usage_write (calls (deliver db tg user_id url found))
         = [EvInsertUsage user_id url s])
  /\ (forall user text,
        result (extract_images b (PyStr.strip text)) = Ok [] ->
        Forall (fun ev => is_usage_write ev = false)
               (calls (handle_url db b tg user text))).
Proof.
  split.
  - intros user_id url found Hne Hedit. cbv zeta.
    destruct (deliver_spec db tg user_id url found Hne Hedit) as [Hr Hc].
    cbv zeta in Hr, Hc. split; [done|]. split; [done|].
    rewrite Hc. simpl. rewrite List.filter_app.
    set (images := take 10 found) in *. set (n := length images) in *.
    destruct (send_loop_spec tg n images 0 0 0) as (_ & _ & Hu).
    rewrite filter_none by (eapply Forall_impl; [apply Hu|]; simpl; tauto).
    destruct (log_usage_calls db user_id url (count_media tg n 0 images true))
      as (t & -> & Ht).
    simpl. f_equal. apply filter_none.
    eapply Forall_impl; [apply Ht|]. by intros ev [w ->].
  - intros user text. apply handle_url_no_images.
Qed.

(** Three candidates; the media send of the second one fails and its
    fallback text goes through: two successes, one failure, and one
    usage-log entry, with the count 2. *)
Lemma delivery_counts_witness :
  result (deliver (store_with 0) (chat_refusing photo_b) 7 post
            [photo_a; photo_b; photo_c])
  = Ok (2, 1)%nat
  /\ List.filter is_usage_write
       (calls (deliver (store_with 0) (chat_refusing photo_b) 7 post
                 [photo_a; photo_b; photo_c]))
     = [EvInsertUsage 7 post 2].
Proof.
  destruct (proj1 (delivery_counts (store_with 0) (healthy_browser [])
                     (chat_refusing photo_b))
              7%Z post [photo_a; photo_b; photo_c]) as (Hr & _ & Hw).
  - discriminate.
  - reflexivity.
  - split; [exact Hr | exact Hw].
Defined.

Lemma length_attempts n images : forall i,
  length (attempts n i images) = length images.
Proof. induction images as [|x l IH]; intros i; simpl; [done|]. by rewrite IH. Qed.

(** C7. Of a list of more than 10 candidates, the delivery attempts the
    first 10, in order, and no other; the two counters add up to 10. *)
Theorem delivery_cap (db : supabase) (tg : telegram) (user_id : Z)
    (url : string) (found : list string) :
  (10 < length found)%nat ->
  tg_edit_text tg (MsgFound 10) = None ->
  exists s f,
    result (deliver db tg user_id url found) = Ok (s, f)
    /\ (s + f = 10)%nat /\ (s + f <= 10)%nat
    /\ List.filter is_send_photo (calls (deliver db tg user_id url found))
       = attempts 10 0 (take 10 found)
    /\ length (attempts 10 0 (take 10 found)) = 10%nat.
Proof.
  intros Hlen Hedit.
  assert (length (take 10 found) = 10%nat) as Hten by (rewrite length_take; lia).
  assert (found ≠ []) as Hne by (intros ->; simpl in Hlen; lia).
  rewrite <- Hten in Hedit.
  destruct (deliver_spec db tg user_id url found Hne Hedit) as [Hr Hc].
  cbv zeta in Hr, Hc. rewrite Hten in Hr, Hc.
  pose proof (count_media_total tg 10 (take 10 found) 0) as Htot.
  rewrite Hten in Htot.
  eexists _, _. split; [exact Hr|]. split; [exact Htot|]. split; [lia|]. split.
  - rewrite Hc. simpl. rewrite List.filter_app.
    destruct (send_loop_spec tg 10 (take 10 found) 0 0 0) as (_ & -> & _).
    destruct (log_usage_calls db user_id url
                (count_media tg 10 0 (take 10 found) true)) as (t & -> & Ht).
    simpl. rewrite filter_none; [by rewrite app_nil_r|].
    eapply Forall_impl; [apply Ht|]. by intros ev [w ->].
  - by rewrite length_attempts.
Qed.

Lemma delivery_cap_witness :
  exists s f,
    result (deliver (store_with 0) chat_ok 7 post (numbered 15)) = Ok (s, f)
    /\ (s + f = 10)%nat /\ (s + f <= 10)%nat
    /\ List.filter is_send_photo
         (calls (deliver (store_with 0) chat_ok 7 post (numbered 15)))
       = attempts 10 0 (take 10 (numbered 15))
    /\ length (attempts 10 0 (take 10 (numbered 15))) = 10%nat.
Proof.
  apply (delivery_cap (store_with 0) chat_ok 7 post (numbered 15)).
  - simpl. lia.
  - reflexivity.
Defined.

(** C9. Two images, the media send of the first one fails: its fallback
    text is followed at once by the media send of the second image.
    The only pause of the loop is the one after the send that went
    through. *)
Theorem no_delay_after_failed_send :
  send_loop (chat_refusing photo_a) 2 0 [photo_a; photo_b] 0 0
  = (Ok (1, 1)%nat,
     [ EvSendPhoto photo_a (MsgCaption 1 2);
       EvLogError "sending image";
       EvSendMessage (MsgDirectLink 1 photo_a);
       EvSendPhoto photo_b (MsgCaption 2 2);
       EvSleep 1 ]).
Proof. reflexivity. Qed.

(** In every chat: a round whose media send raises makes no pause, and
    a round whose media send returns pauses for one second. *)
Lemma send_one_failed_no_sleep (tg : telegram) n i image_url s f e :
  tg_send_photo tg image_url (MsgCaption (i + 1) n) = Some e ->
  calls (send_one tg n i image_url s f)
  = [ EvSendPhoto image_url (MsgCaption (i + 1) n);
      EvLogError "sending image";
      EvSendMessage (MsgDirectLink (i + 1) image_url) ].
Proof.
  intros H. unfold send_one, send_photo, send_message. rewrite H. simpl.
  by destruct (tg_send_message tg (MsgDirectLink (i + 1) image_url)).
Qed.

Lemma send_one_sent_sleeps (tg : telegram) n i image_url s f :
  tg_send_photo tg image_url (MsgCaption (i + 1) n) = None ->
  calls (send_one tg n i image_url s f)
  = [ EvSendPhoto image_url (MsgCaption (i + 1) n); EvSleep 1 ].
Proof. intros H. unfold send_one, send_photo. by rewrite H. Qed.

(** C10. When the query for today's usage raises, [get_today_usage]
    returns 0; the handler then passes the quota test, and for a
    LinkedIn URL, once the processing text is out, it runs the part that
    starts the scraper.  When the user cannot be obtained, the handler
    replies with the error text and does nothing else. *)
Theorem quota_fails_open (db : supabase) (b : browser) (tg : telegram)
    (user : chat_user) (text : string) :
  (forall user_id e,
      usage_select_today db user_id = Raise e ->
      result (get_today_usage db user_id) = Ok 0%nat)
  /\ (forall db_user t0 e,
        get_or_create_user db user = (Ok (Some db_user), t0) ->
        usage_select_today db (row_id db_user) = Raise e ->
        PyStr.contains "linkedin.com" (PyStr.strip text) = true ->
        tg_reply_text tg MsgProcessing = None ->
        handle_url db b tg user text
        = (result (process db b tg (row_id db_user) 0 (PyStr.strip text)),
           t0 ++ [ EvSelectUsage (row_id db_user); EvLogError "get_today_usage";
                   EvReplyText MsgProcessing ]
              ++ calls (process db b tg (row_id db_user) 0 (PyStr.strip text)))
        /\ EvInstallDriver ∈ calls (handle_url db b tg user text))
  /\ (forall t0,
        get_or_create_user db user = (Ok None, t0) ->
        handle_url db b tg user text
        = (match tg_reply_text tg MsgUserError with
           | None => Ok tt
           | Some e => Raise e
           end,
           t0 ++ [EvReplyText MsgUserError])
        /\ Forall no_extraction (calls (handle_url db b tg user text))).
Proof.
  split; [|split].
  - intros user_id e H. by rewrite (get_today_usage_raise db user_id e H).
  - intros db_user t0 e Huser Hq Hurl Hreply.
    assert (handle_url db b tg user text
            = (result (process db b tg (row_id db_user) 0 (PyStr.strip text)),
               t0 ++ [ EvSelectUsage (row_id db_user);
                       EvLogError "get_today_usage";
                       EvReplyText MsgProcessing ]
                  ++ calls (process db b tg (row_id db_user) 0 (PyStr.strip text))))
      as Heq.
    { unfold handle_url. rewrite (bind_ok _ _ _ _ Huser). cbv beta iota.
      rewrite (bind_ok _ _ _ _ (get_today_usage_raise db _ e Hq)). cbv beta.
      simpl (5 <=? 0)%nat. cbv iota. rewrite Hurl. simpl negb. cbv iota.
      unfold reply_text. rewrite Hreply.
      rewrite (bind_ok _ _ tt [EvReplyText MsgProcessing] eq_refl). cbv beta.
      simpl. done. }
    split; [done|]. rewrite Heq. simpl.
    destruct (process_begins db b tg (row_id db_user) 0 (PyStr.strip text))
      as [t ->].
    rewrite !elem_of_app, !elem_of_cons. tauto.
  - intros t0 Huser.
    assert (handle_url db b tg user text
            = (match tg_reply_text tg MsgUserError with
               | None => Ok tt
               | Some e => Raise e
               end,
               t0 ++ [EvReplyText MsgUserError])) as Heq.
    { unfold handle_url. rewrite (bind_ok _ _ _ _ Huser). cbv beta iota.
      unfold reply_text. done. }
    split; [done|]. rewrite Heq. simpl. apply Forall_app. split.
    + pose proof (get_or_create_user_calls db user) as Hc. by rewrite Huser in Hc.
    + by repeat constructor.
Qed.

Lemma quota_fails_open_witness :
  result (get_today_usage store_usage_query_down 7) = Ok 0%nat
  /\ EvInstallDriver
       ∈ calls (handle_url store_usage_query_down (healthy_browser [unsized])
                  chat_ok alice post)
  /\ Forall no_extraction
       (calls (handle_url store_down (healthy_browser [unsized]) chat_ok
                 alice post)).
Proof.
  split; [|split].
  - apply (proj1 (quota_fails_open store_usage_query_down
                    (healthy_browser [unsized]) chat_ok alice post)
             7%Z APIError).
    reflexivity.
  - apply (proj1 (proj2 (quota_fails_open store_usage_query_down
                           (healthy_browser [unsized]) chat_ok alice post))
             alice_row
             [EvRpcSetUserContext 1001; EvSelectUser 1001; EvUpdateLastActive 1001]
             APIError); reflexivity.
  - apply (proj2 (proj2 (quota_fails_open store_down
                           (healthy_browser [unsized]) chat_ok alice post))
             [EvRpcSetUserContext 1001; EvLogError "set_user_context";
              EvSelectUser 1001; EvLogError "get_or_create_user"]).
    reflexivity.
Defined.

(** With the store answering, the same user with 5 requests today is
    stopped; with the usage query failing, the request goes through to
    the delivery and is logged. *)
Example fail_open_run :
  calls (handle_url store_usage_query_down (healthy_browser [unsized]) chat_ok
           alice post)
  = [ EvRpcSetUserContext 1001; EvSelectUser 1001; EvUpdateLastActive 1001;
      EvSelectUsage 7; EvLogError "get_today_usage";
      EvReplyText MsgProcessing;
      EvInstallDriver; EvSessionCreated; EvExecuteScript stealth_js;
      EvGet post; EvSleep 8;
      EvExecuteScript scroll_js; EvSleep 2;
      EvExecuteScript scroll_js; EvSleep 2;
      EvExecuteScript scroll_js; EvSleep 2;
      EvFindElements "tag name" "img"; EvFindElements "css selector" "*";
      EvQuit;
      EvEditText (MsgFound 1);
      EvSendPhoto photo_b (MsgCaption 1 1); EvSleep 1;
      EvInsertUsage 7 post 1;
      EvReplyText (MsgDone 1 0 4) ].
Proof. vm_compute. reflexivity. Qed.

(** * Further properties of the store helpers *)

(** X1. [get_or_create_user], once the look-up has answered: a user
    without a row is inserted and not updated, a user with a row is
    updated and not inserted; what is returned is the first row the
    insert or the update gives back, and [None] when that call raises or
    gives back no row. *)
Theorem get_or_create_user_insert_or_update (db : supabase) (u : chat_user)
    (data : list user_row) :
  users_select db (tg_id u) = Ok data ->
  (data = [] ->
     (result (get_or_create_user db u)
      = Ok (match users_insert db (tg_id u) with
            | Ok rows => head rows
            | Raise _ => None
            end))
     /\ EvInsertUser (tg_id u) ∈ calls (get_or_create_user db u)
     /\ EvUpdateLastActive (tg_id u) ∉ calls (get_or_create_user db u))
  /\ (data ≠ [] ->
     (result (get_or_create_user db u)
      = Ok (match users_update db (tg_id u) with
            | Ok rows => head rows
            | Raise _ => None
            end))
     /\ EvUpdateLastActive (tg_id u) ∈ calls (get_or_create_user db u)
     /\ EvInsertUser (tg_id u) ∉ calls (get_or_create_user db u)).
Proof.
  intros Hsel. unfold get_or_create_user, set_user_context, first_row.
  rewrite Hsel. split; intros Hdata.
  - subst data.
    destruct (rpc_set_user_context db (tg_id u)),
      (users_insert db (tg_id u)) as [rows|?]; simpl;
      (split; [done|]); rewrite !elem_of_cons, !elem_of_nil; split;
      naive_solver.
  - destruct data as [|row data]; [done|].
    destruct (rpc_set_user_context db (tg_id u)),
      (users_update db (tg_id u)) as [rows|?]; simpl;
      (split; [done|]); rewrite !elem_of_cons, !elem_of_nil; split;
      naive_solver.
Qed.

Lemma get_or_create_user_insert_or_update_witness :
  (result (get_or_create_user store_new_user alice) = Ok (Some alice_row)
   /\ EvInsertUser 1001 ∈ calls (get_or_create_user store_new_user alice)
   /\ EvUpdateLastActive 1001 ∉ calls (get_or_create_user store_new_user alice))
  /\ (result (get_or_create_user (store_with 0) alice) = Ok (Some alice_row)
      /\ EvUpdateLastActive 1001 ∈ calls (get_or_create_user (store_with 0) alice)
      /\ EvInsertUser 1001 ∉ calls (get_or_create_user (store_with 0) alice)).
Proof.
  split.
  - apply (proj1 (get_or_create_user_insert_or_update store_new_user alice []
                    eq_refl)).
    reflexivity.
  - apply (proj2 (get_or_create_user_insert_or_update (store_with 0) alice
                    [alice_row] eq_refl)).
    discriminate.
Defined.

(** X2. An error of the RPC [set_user_context] is swallowed: what
    [get_or_create_user] returns does not depend on the answer of the
    RPC, and the look-up of the user is made in every case. *)
Theorem rpc_error_swallowed (db : supabase) (r : Z -> option exn) (u : chat_user) :
  result (get_or_create_user (with_rpc db r) u) = result (get_or_create_user db u)
  /\ EvSelectUser (tg_id u) ∈ calls (get_or_create_user (with_rpc db r) u).
Proof.
  unfold get_or_create_user, set_user_context, with_rpc; simpl.
  destruct (r (tg_id u)), (rpc_set_user_context db (tg_id u)),
    (users_select db (tg_id u)) as [[|row data]|?]; simpl;
    destruct (users_insert db (tg_id u)), (users_update db (tg_id u)); simpl;
    (split; [done|]); rewrite !elem_of_cons; naive_solver.
Qed.

(** X3. When the look-up of the user raises, [get_or_create_user]
    returns [None] without raising, logs the error, and neither inserts
    nor updates a row. *)
Theorem get_or_create_user_lookup_fails (db : supabase) (u : chat_user) (e : exn) :
  users_select db (tg_id u) = Raise e ->
  result (get_or_create_user db u) = Ok None
  /\ EvLogError "get_or_create_user" ∈ calls (get_or_create_user db u)
  /\ EvInsertUser (tg_id u) ∉ calls (get_or_create_user db u)
  /\ EvUpdateLastActive (tg_id u) ∉ calls (get_or_create_user db u).
Proof.
  intros Hsel. unfold get_or_create_user, set_user_context. rewrite Hsel.
  destruct (rpc_set_user_context db (tg_id u)); simpl;
    (split; [done|]); rewrite !elem_of_cons, !elem_of_nil; naive_solver.
Qed.

Lemma get_or_create_user_lookup_fails_witness :
  result (get_or_create_user store_down alice) = Ok None
  /\ EvLogError "get_or_create_user" ∈ calls (get_or_create_user store_down alice)
  /\ EvInsertUser 1001 ∉ calls (get_or_create_user store_down alice)
  /\ EvUpdateLastActive 1001 ∉ calls (get_or_create_user store_down alice).
Proof.
  apply (get_or_create_user_lookup_fails store_down alice APIError). reflexivity.
Defined.

(** * Further properties of the extractor *)

(** X4. Every URL [extract_images] returns is the [src] of an image
    element of the page, is not empty, starts with [http], is not a
    [data:] URL and matches no denylist pattern. *)
Theorem returned_urls_absolute (b : browser) (post_url : string)
    (out : list string) (x : string) :
  result (extract_images b post_url) = Ok out -> x ∈ out ->
  (exists imgs img, drv_img_elements b = Ok imgs /\ img ∈ imgs
                    /\ el_src img = Ok (Some x))
  /\ x <> EmptyString
  /\ PyStr.startswith x "http" = true
  /\ PyStr.startswith x "data:" = false
  /\ should_exclude x = false.
Proof.
  intros Hout Hx.
  destruct (extract_images_sound b post_url out x Hout Hx)
    as (imgs & img & Himgs & Hin & (Hsrc & _ & Ht & Hd & Hex & Hh) & _).
  split; [by eauto|]. split; [by intros ->|]. done.
Qed.

Lemma returned_urls_absolute_witness :
  (exists imgs img,
      drv_img_elements (healthy_browser [thumb; unsized; logo_img]) = Ok imgs
      /\ img ∈ imgs /\ el_src img = Ok (Some photo_b))
  /\ photo_b <> EmptyString
  /\ PyStr.startswith photo_b "http" = true
  /\ PyStr.startswith photo_b "data:" = false
  /\ should_exclude photo_b = false.
Proof.
  apply (returned_urls_absolute (healthy_browser [thumb; unsized; logo_img]) post
           [photo_b] photo_b).
  - vm_compute. reflexivity.
  - rewrite elem_of_cons. by left.
Defined.

(** X5. When the session runs from start to end, the returned list
    holds exactly the sources of the elements the main loop accepts. *)
Theorem returned_urls_complete (b : browser) (post_url : string)
    (imgs : list element) :
  session_starts b && page_loads b post_url && session_closes b = true ->
  drv_img_elements b = Ok imgs ->
  exists out,
    result (extract_images b post_url) = Ok out
    /\ forall x, x ∈ out <-> exists img, img ∈ imgs /\ accepts img x.
Proof.
  rewrite !andb_true_iff. intros [[Hs Hl] Hq] Himgs.
  rewrite extract_images_result. destruct (session_started b post_url Hs) as [t ->].
  unfold session_closes, returns_ in Hq. destruct (drv_quit b); [done|].
  rewrite Hl. simpl. eexists. split; [done|]. intros x.
  rewrite elem_of_unique. split.
  - intros Hx. destruct (images_of_page_checks b x Hx)
      as (imgs' & img & Himgs' & Hin & _ & Hacc).
    rewrite Himgs in Himgs'. simplify_eq. eauto.
  - intros (img & Hin & Hacc). by eapply images_of_page_accepted.
Qed.

Lemma returned_urls_complete_witness :
  exists out,
    result (extract_images (healthy_browser [thumb; unsized]) post) = Ok out
    /\ forall x, x ∈ out <-> exists img, img ∈ [thumb; unsized] /\ accepts img x.
Proof.
  apply (returned_urls_complete (healthy_browser [thumb; unsized]) post
           [thumb; unsized]); reflexivity.
Defined.

(** The round of an element that reached the size test, in terms of
    the outcome of the test. *)
Lemma process_image_passed (img : element) (src : string) (small : bool) :
  passes_url_checks img src -> small_image img = (Ok small, []) ->
  forall images,
    process_image img images
    = (Ok (if small then images else images ++ [src]), []).
Proof.
  intros (Hsrc & [alt Halt] & Ht & Hd & Hx & Hh) Hsm images.
  unfold process_image. rewrite Hsrc, Halt. simpl. rewrite Ht, Hd, Hx, Hh. simpl.
  rewrite Hsm. by destruct small.
Qed.

(** The size test says "small" only for two integers, one below 50. *)
Lemma small_image_true (img : element) :
  small_image img = (Ok true, []) ->
  exists w h, dimension_known (el_width img) w /\ dimension_known (el_height img) h
              /\ (w < 50 \/ h < 50)%Z.
Proof.
  unfold small_image, py_int, from_option, dimension_known.
  destruct (el_width img) as [[ws|]|?], (el_height img) as [[hs|]|?];
    simpl; try discriminate;
    try (destruct (PyStr.truthy ws); simpl; discriminate).
  destruct (PyStr.truthy ws), (PyStr.truthy hs); simpl; try discriminate.
  destruct (PyStr.int ws) as [w|] eqn:Hw; simpl; [|discriminate].
  destruct (PyStr.int hs) as [h|] eqn:Hh; simpl; [|discriminate].
  intros [= Hsmall]. exists w, h. split; [by eauto|]. split; [by eauto|].
  apply orb_true_iff in Hsmall. rewrite !Z.ltb_lt in Hsmall. done.
Qed.

(** The size test on two integers. *)
Lemma small_image_known (img : element) (w h : Z) :
  dimension_known (el_width img) w -> dimension_known (el_height img) h ->
  small_image img = (Ok ((w <? 50)%Z || (h <? 50)%Z), []).
Proof.
  intros (ws & Hw & Hwi) (hs & Hh & Hhi).
  unfold small_image, py_int, from_option. rewrite Hw, Hh. simpl.
  assert (PyStr.truthy ws = true) as ->.
  { destruct ws; [|done]. discriminate Hwi. }
  assert (PyStr.truthy hs = true) as ->.
  { destruct hs; [|done]. discriminate Hhi. }
  simpl. by rewrite Hwi, Hhi.
Qed.

(** X6. For an element that reached the size test, the test excludes
    it exactly when width and height both read as integers and one of
    them is below 50; in every other case (a dimension missing, a read
    that raises, a value like [40px] that is no integer) the element is
    accepted. *)
Theorem size_exclusion_exact (img : element) (src : string) :
  passes_url_checks img src ->
  (skips img <->
     exists w h, dimension_known (el_width img) w
                 /\ dimension_known (el_height img) h /\ (w < 50 \/ h < 50)%Z)
  /\ (dimension_unreadable (el_width img) \/ dimension_unreadable (el_height img) ->
      accepts img src).
Proof.
  intros Hp. destruct (small_image_returns img) as [small Hsm].
  pose proof (process_image_passed img src small Hp Hsm) as Hrun.
  split; [split|].
  - intros Hskip. destruct small; [by apply small_image_true|].
    destruct (accepts_not_skips img src Hrun Hskip).
  - intros (w & h & Hw & Hh & Hlt).
    rewrite (small_image_known img w h Hw Hh) in Hsm. injection Hsm as <-.
    assert ((w <? 50)%Z || (h <? 50)%Z = true) as Hb
      by (apply orb_true_iff; rewrite !Z.ltb_lt; lia).
    rewrite Hb in Hrun. intros images. rewrite (Hrun images). eauto.
  - intros Hbad. destruct small; [|exact Hrun].
    destruct (small_image_true img Hsm) as (w & h & (ws & Hw & Hwi) & (hs & Hh & Hhi) & _).
    destruct Hbad as [[[e He]|(s & Hs & Hi)]|[[e He]|(s & Hs & Hi)]];
      congruence.
Qed.

Lemma px_sized_checks : passes_url_checks px_sized photo_c.
Proof. repeat split. by exists (Some EmptyString). Defined.

Lemma size_exclusion_exact_witness :
  (skips px_sized <->
     exists w h, dimension_known (el_width px_sized) w
                 /\ dimension_known (el_height px_sized) h /\ (w < 50 \/ h < 50)%Z)
  /\ (dimension_unreadable (el_width px_sized)
      \/ dimension_unreadable (el_height px_sized) ->
      accepts px_sized photo_c).
Proof. apply (size_exclusion_exact px_sized photo_c px_sized_checks). Defined.

(** An image of 40 by 40 whose width reads [40px] is returned. *)
Example px_sized_returned :
  result (extract_images (healthy_browser [px_sized]) post) = Ok [photo_c].
Proof. vm_compute. reflexivity. Qed.

(** ** Pauses and the end of the session *)

Lemma slept_app (t1 t2 : trace) : slept (t1 ++ t2) = (slept t1 + slept t2)%nat.
Proof.
  induction t1 as [|ev t1 IH]; simpl; [done|].
  destruct ev; simpl; rewrite IH; lia.
Qed.

Lemma slept_bind {A B} (m : M A) (k : A -> M B) :
  slept (calls (bind m k))
  = (slept (calls m)
     + match result m with Ok a => slept (calls (k a)) | Raise _ => 0 end)%nat.
Proof. rewrite calls_bind, slept_app. by destruct (result m). Qed.

Lemma slept_try_except {A} (m : M A) h :
  slept (calls (try_except m h))
  = (slept (calls m)
     + match result m with Ok _ => 0 | Raise e => slept (calls (h e)) end)%nat.
Proof. rewrite calls_try_except, slept_app. by destruct (result m). Qed.

(** A trace of log entries holds no pause and no call of [quit]. *)
Lemma only_log_slept (t : trace) :
  Forall (fun ev => exists w, ev = EvLogError w) t -> slept t = 0%nat.
Proof. induction 1 as [|ev t [w ->] _ IH]; simpl; done. Qed.

Lemma debug_pass_only_log imgs acc :
  Forall (fun ev => exists w, ev = EvLogError w) (calls (debug_pass imgs acc)).
Proof.
  revert acc. induction imgs as [|img imgs IH]; intros acc; cbn [debug_pass].
  - constructor.
  - calls_auto. repeat constructor. eauto.
Qed.

Lemma background_pass_only_log els n :
  Forall (fun ev => exists w, ev = EvLogError w) (calls (background_pass els n)).
Proof.
  revert n. induction els as [|el els IH]; intros n; cbn [background_pass].
  - constructor.
  - calls_auto.
Qed.

Lemma main_pass_only_log imgs images :
  Forall (fun ev => exists w, ev = EvLogError w) (calls (main_pass imgs images)).
Proof.
  revert images. induction imgs as [|img imgs IH]; intros images.
  - constructor.
  - rewrite main_pass_cons. apply Forall_calls_bind; [|intros; apply IH].
    unfold process_image. calls_auto.
    + destruct (small_image_returns img) as [sm ->]. constructor.
    + repeat constructor. eauto.
Qed.

(** The three scrolls: two seconds after each script that returned. *)
Lemma scroll_loop_slept (b : browser) (todo k : nat) :
  (slept (calls (scroll_loop b k todo)) <= 2 * todo)%nat
  /\ (forall u, result (scroll_loop b k todo) = Ok u ->
        slept (calls (scroll_loop b k todo)) = 2 * todo)%nat.
Proof.
  revert k. induction todo as [|todo IH]; intros k; cbn [scroll_loop].
  - by split.
  - destruct (IH (S k)) as [Hle Heq]. unfold execute_script.
    destruct (drv_execute_script b k) as [e|] eqn:Hk.
    + simpl. split; [lia|done].
    + rewrite (bind_ok _ _ tt [EvExecuteScript scroll_js] eq_refl). cbv beta.
      unfold sleep, emit.
      rewrite (bind_ok _ _ tt [EvSleep 2] eq_refl). cbv beta.
      simpl. split; [lia|]. intros u Hu. rewrite (Heq u Hu). lia.
Qed.

Lemma scroll_loop_result (b : browser) (todo k : nat) :
  (forall j, (k <= j < k + todo)%nat -> drv_execute_script b j = None) ->
  result (scroll_loop b k todo) = Ok tt.
Proof.
  revert k. induction todo as [|todo IH]; intros k Hall; cbn [scroll_loop]; [done|].
  unfold execute_script. rewrite (Hall k) by lia.
  rewrite (bind_ok _ _ tt [EvExecuteScript scroll_js] eq_refl). cbv beta.
  unfold sleep, emit. rewrite (bind_ok _ _ tt [EvSleep 2] eq_refl). cbv beta.
  simpl. apply IH. intros j Hj. apply Hall. lia.
Qed.

Lemma background_check_slept (b : browser) :
  slept (calls (background_check b)) = 0%nat.
Proof.
  unfold background_check.
  destruct (drv_all_elements b) as [els|e]; simpl; [|done].
  destruct (background_pass_returns (take 100 els) 0) as (n & t & Hb).
  pose proof (background_pass_only_log (take 100 els) 0) as Hlog.
  rewrite Hb in *. simpl in *. rewrite app_nil_r. by apply only_log_slept.
Qed.

Lemma slept_call_bind {B} ev r (k : unit -> M B) :
  slept (calls (bind (call ev r) k))
  = (slept [ev] + match r with None => slept (calls (k tt)) | Some _ => 0 end)%nat.
Proof. rewrite slept_bind. by destruct r. Qed.

Lemma slept_sleep_bind {B} n (k : unit -> M B) :
  slept (calls (bind (sleep n) k)) = (n + slept (calls (k tt)))%nat.
Proof. rewrite slept_bind. simpl. lia. Qed.

Lemma slept_ask_bind {A B} ev (r : outcome A) (k : A -> M B) :
  slept (calls (bind (ask ev r) k))
  = (slept [ev]
     + match r with Ok a => slept (calls (k a)) | Raise _ => 0 end)%nat.
Proof. rewrite slept_bind. by destruct r. Qed.

(** The pauses of the inner [try]: 8 seconds once the page is fetched,
    and 2 seconds after each scroll. *)
Lemma scrape_slept (b : browser) (post_url : string) :
  (slept (calls (scrape b post_url)) <= 14)%nat
  /\ (page_loads b post_url = true -> slept (calls (scrape b post_url)) = 14%nat).
Proof.
  unfold scrape, page_loads, returns_.
  rewrite slept_call_bind, slept_sleep_bind, slept_bind.
  destruct (scroll_loop_slept b 3 1) as [Hle Heq].
  assert (forall imgs,
    slept (calls (do _ <- debug_pass imgs [];
                  run background_check b; main_pass imgs [])) = 0%nat) as Hrest.
  { intros imgs. rewrite slept_bind, (only_log_slept _ (debug_pass_only_log imgs [])).
    destruct (debug_pass_returns imgs []) as (acc & t & ->). cbn [result fst].
    rewrite slept_bind, background_check_slept.
    destruct (background_check_returns b) as [t' ->]. cbn [result fst].
    by rewrite (only_log_slept _ (main_pass_only_log imgs [])). }
  destruct (drv_get b post_url) as [e|]; [simpl; split; [lia|done]|].
  set (n := slept (calls (scroll_loop b 1 3))) in *.
  destruct (result (scroll_loop b 1 3)) as [[]|e] eqn:Hscroll.
  - rewrite (Heq tt eq_refl), slept_ask_bind.
    destruct (drv_img_elements b) as [imgs|e].
    + rewrite Hrest. simpl. split; [lia|]. intros _. lia.
    + simpl. split; [lia|]. by rewrite !andb_false_r.
  - simpl. split; [lia|]. intros Hl. exfalso.
    destruct (drv_execute_script b 1) eqn:E1; [done|].
    destruct (drv_execute_script b 2) eqn:E2; [done|].
    destruct (drv_execute_script b 3) eqn:E3; [done|].
    rewrite (scroll_loop_result b 3 1) in Hscroll; [done|].
    intros j Hj. assert (j = 1 \/ j = 2 \/ j = 3)%nat as [->|[->| ->]] by lia; done.
Qed.

Lemma extraction_pauses_all (b : browser) (post_url : string) :
  (slept (calls (extract_images b post_url)) <= 14)%nat
  /\ (session_starts b && page_loads b post_url = true ->
      slept (calls (extract_images b post_url)) = 14%nat)
  /\ (session_starts b = false ->
      slept (calls (extract_images b post_url)) = 0%nat).
Proof.
  unfold extract_images. rewrite slept_try_except, slept_bind.
  assert (forall images, slept (calls (ret (unique images) : M (list string))) = 0%nat)
    as Hret by done.
  assert (slept (calls (session b post_url))
          = if session_starts b then slept (calls (scrape b post_url))
            else 0%nat) as Hsession.
  { unfold session, session_starts, chrome, execute_script, returns_.
    rewrite slept_call_bind. destruct (drv_install b); [done|].
    rewrite slept_bind. destruct (drv_chrome b); [done|].
    cbn [emit result calls fst snd]. rewrite slept_call_bind.
    destruct (drv_execute_script b 0); [done|].
    rewrite calls_try_finally, slept_app, slept_try_except.
    set (n := slept (calls (scrape b post_url))).
    destruct (result (scrape b post_url)); simpl; lia. }
  rewrite Hsession. destruct (scrape_slept b post_url) as [Hle Heq].
  assert (forall r : outcome (list string),
            match r with
            | Ok a => slept (calls (ret (unique a) : M (list string)))
            | Raise _ => 0%nat
            end = 0%nat) as -> by (by intros []).
  assert (forall r : outcome (list string),
            match r with
            | Ok _ => 0%nat
            | Raise e => slept (calls (run log_error "extract_images"; ret []
                                       : M (list string)))
            end = 0%nat) as Hh by (by intros []).
  rewrite Hh. destruct (session_starts b); simpl.
  - split; [lia|]. split; [|done]. intros Hl. rewrite (Heq Hl). lia.
  - split; [lia|]. split; [done|]. done.
Qed.


Lemma extraction_pauses_bound (b : browser) (post_url : string) :
  (slept (calls (extract_images b post_url)) <= 14)%nat.
Proof. apply extraction_pauses_all. Qed.

(** X7. One extraction pauses for at most 14 seconds, and for exactly
    14 seconds when the session starts and the page loads: 8 seconds
    after the navigation and 2 seconds after each of the three scrolls. *)
Theorem extraction_pauses (b : browser) (post_url : string) :
  (slept (calls (extract_images b post_url)) <= 14)%nat
  /\ (session_starts b && page_loads b post_url = true ->
      slept (calls (extract_images b post_url)) = 14%nat)
  /\ (session_starts b = false ->
      slept (calls (extract_images b post_url)) = 0%nat).
Proof. apply extraction_pauses_all. Qed.

Lemma extraction_pauses_witness :
  (slept (calls (extract_images (healthy_browser [unsized]) post)) <= 14)%nat
  /\ (session_starts (healthy_browser [unsized])
      && page_loads (healthy_browser [unsized]) post = true ->
      slept (calls (extract_images (healthy_browser [unsized]) post)) = 14%nat)
  /\ (session_starts (healthy_browser [unsized]) = false ->
      slept (calls (extract_images (healthy_browser [unsized]) post)) = 0%nat).
Proof. apply (extraction_pauses (healthy_browser [unsized]) post). Defined.

Lemma only_log_never_quits (t : trace) :
  Forall (fun ev => exists w, ev = EvLogError w) t ->
  Forall (fun ev => is_quit ev = false) t.
Proof. intros H. eapply Forall_impl; [apply H|]. by intros ev [w ->]. Qed.

Lemma scroll_loop_never_quits (b : browser) k todo :
  Forall (fun ev => is_quit ev = false) (calls (scroll_loop b k todo)).
Proof.
  revert k. induction todo as [|todo IH]; intros k; cbn [scroll_loop].
  - constructor.
  - unfold execute_script. calls_auto.
Qed.

Lemma scrape_never_quits (b : browser) (post_url : string) :
  Forall (fun ev => is_quit ev = false) (calls (scrape b post_url)).
Proof.
  unfold scrape, background_check. calls_auto;
    auto using scroll_loop_never_quits, only_log_never_quits,
      debug_pass_only_log, background_pass_only_log, main_pass_only_log.
Qed.

(** X8. [extract_images] calls [quit] once when the session was
    started (driver installed, session created, first script returned),
    as the last call on the browser, and never otherwise. *)
Theorem quit_exactly_once (b : browser) (post_url : string) :
  List.filter is_quit (calls (extract_images b post_url))
  = (if session_starts b then [EvQuit] else [])
  /\ (session_starts b = true ->
      exists t t',
        calls (extract_images b post_url) = t ++ EvQuit :: t'
        /\ Forall (fun ev => is_browser_call ev = false) t').
Proof.
  assert (exists t', calls (extract_images b post_url)
                     = calls (session b post_url) ++ t'
                     /\ Forall (fun ev => exists w, ev = EvLogError w) t')
    as (t' & Hcalls & Hlog).
  { unfold extract_images.
    destruct (session b post_url) as [[images|e] ts]; simpl.
    - exists []. by split.
    - eexists. split; [done|]. repeat constructor. eauto. }
  assert (List.filter is_quit t' = []) as Hq'.
  { apply filter_none. eapply Forall_impl; [apply Hlog|]. by intros ev [w ->]. }
  assert (Forall (fun ev => is_browser_call ev = false) t') as Hb'.
  { eapply Forall_impl; [apply Hlog|]. by intros ev [w ->]. }
  rewrite Hcalls, List.filter_app, Hq', app_nil_r.
  destruct (session_starts b) eqn:Hs.
  - assert (exists t, calls (session b post_url) = t ++ [EvQuit]
                      /\ Forall (fun ev => is_quit ev = false) t) as (t & Ht & Hnq).
    { revert Hs. unfold session_starts, session, chrome, execute_script, returns_.
      destruct (drv_install b); [done|]. destruct (drv_chrome b); [done|].
      destruct (drv_execute_script b 0); [done|]. intros _.
      pose proof (scrape_never_quits b post_url) as Hsc.
      destruct (scrape b post_url) as [[images|e] ts]; simpl in Hsc.
      - exists ([EvInstallDriver; EvSessionCreated; EvExecuteScript stealth_js] ++ ts).
        split; [by destruct (drv_quit b)|]. by repeat (constructor; [done|]).
      - exists ([EvInstallDriver; EvSessionCreated; EvExecuteScript stealth_js]
                ++ ts ++ [EvLogError "Selenium error"]).
        split; [destruct (drv_quit b); simpl; by rewrite <- !app_assoc|].
        repeat (constructor; [done|]). apply Forall_app. split; [done|].
        by repeat constructor. }
    rewrite Ht, List.filter_app, (filter_none _ _ Hnq). split; [done|].
    intros _. exists t, t'. split; [|done]. by rewrite <- app_assoc.
  - destruct (session_not_started b post_url Hs) as (e & _ & Hnot).
    split; [|done]. apply filter_none. apply Forall_forall. intros ev Hev.
    by destruct ev.
Qed.

Lemma quit_exactly_once_witness :
  List.filter is_quit (calls (extract_images (healthy_browser [unsized]) post))
  = (if session_starts (healthy_browser [unsized]) then [EvQuit] else [])
  /\ (session_starts (healthy_browser [unsized]) = true ->
      exists t t',
        calls (extract_images (healthy_browser [unsized]) post) = t ++ EvQuit :: t'
        /\ Forall (fun ev => is_browser_call ev = false) t').
Proof. apply (quit_exactly_once (healthy_browser [unsized]) post). Defined.

(** X9. The scan of the page for background images only counts and
    logs: what [extract_images] returns does not depend on what the
    enumeration of all elements answers, be it an exception. *)
Theorem background_scan_not_used (b : browser) (r : outcome (list element))
    (post_url : string) :
  result (extract_images (with_all_elements b r) post_url)
  = result (extract_images b post_url).
Proof.
  rewrite !extract_images_result. f_equal.
  destruct (session_starts b) eqn:Hs.
  - assert (session_starts (with_all_elements b r) = true) as Hs' by exact Hs.
    destruct (session_started b post_url Hs) as [t ->].
    destruct (session_started (with_all_elements b r) post_url Hs') as [t' ->].
    reflexivity.
  - assert (session_starts (with_all_elements b r) = false) as Hs' by exact Hs.
    destruct (session_not_started b post_url Hs) as (e & -> & _).
    destruct (session_not_started (with_all_elements b r) post_url Hs')
      as (e' & -> & _).
    reflexivity.
Qed.

(** ** The denylist test, both ways *)

Lemma lower_ascii_eqb_nocase (a c : ascii) :
  PyStr.lower_ascii a = a -> PyStr.lower_ascii c = a -> eqb_nocase a c = true.
Proof.
  unfold eqb_nocase, PyStr.lower_ascii. intros Ha Hc.
  destruct (PyStr.is_upper c) eqn:Hu.
  - apply orb_true_iff. right. rewrite andb_true_iff, Nat.eqb_eq. split; [done|].
    rewrite <- Hc. unfold PyStr.code at 1. apply nat_ascii_embedding.
    apply is_upper_bounds in Hu. lia.
  - subst c. rewrite Ascii.eqb_refl. done.
Qed.

(** On an ASCII string [lower] works byte by byte. *)
Lemma lower_ascii_string (s : string) :
  PyStr.is_ascii s = true -> PyStr.lower s = PyStr.lower_bytes s.
Proof.
  induction s as [|c s IH]; intros H; [done|].
  cbn [PyStr.is_ascii] in H. apply andb_true_iff in H as [Hc H].
  rewrite (lower_cons_ascii c s Hc), (IH H). done.
Qed.

Lemma prefix_lower_nocase (p s : string) :
  PyStr.lower_bytes p = p -> String.prefix p (PyStr.lower_bytes s) = true ->
  prefix_nocase p s = true.
Proof.
  revert s. induction p as [|a p IH]; intros s Hp H; [done|].
  destruct s as [|c s]; [done|].
  cbn [PyStr.lower_bytes] in Hp, H. injection Hp as Ha Hp'.
  rewrite prefix_cons in H. apply andb_true_iff in H as [Hac H].
  apply bool_decide_eq_true in Hac. simpl. apply andb_true_iff. split.
  - by apply lower_ascii_eqb_nocase.
  - by apply IH.
Qed.

Lemma contains_lower_nocase (p s : string) :
  PyStr.lower_bytes p = p -> PyStr.contains p (PyStr.lower_bytes s) = true ->
  occurs_nocase p s = true.
Proof.
  intros Hp. induction s as [|c s IH]; simpl; intros H.
  - apply orb_true_iff in H as [H|H]; [|done].
    apply orb_true_iff. left. by apply (prefix_lower_nocase p EmptyString).
  - apply orb_true_iff in H as [H|H]; apply orb_true_iff.
    + left. by apply (prefix_lower_nocase p (String c s)).
    + right. by apply IH.
Qed.

(** X10. On an ASCII URL the denylist test of the main loop is the
    case-insensitive substring test, both ways: [should_exclude] holds
    for such a URL exactly when one of the eight patterns occurs in it
    with the case of the letters ignored.  (Outside ASCII the test of
    the code catches more: [lower] turns the Kelvin sign into [k].) *)
Theorem should_exclude_exact (src : string) :
  PyStr.is_ascii src = true ->
  should_exclude src = denylisted src.
Proof.
  intros Hasc.
  apply eq_true_iff_eq. split; [|apply denylisted_should_exclude].
  unfold denylisted, should_exclude. rewrite !existsb_exists.
  intros (p & Hin & Hp). exists p. split; [done|].
  destruct (exclude_patterns_lower p) as [Hpa Hpl];
    [by apply list_elem_of_In|].
  rewrite (lower_ascii_string src Hasc) in Hp.
  rewrite (lower_ascii_string p Hpa) in Hpl.
  by apply contains_lower_nocase.
Qed.

Lemma should_exclude_exact_witness :
  should_exclude "https://media.licdn.com/dms/Company-Logo_100.png"
  = denylisted "https://media.licdn.com/dms/Company-Logo_100.png".
Proof.
  apply (should_exclude_exact
           "https://media.licdn.com/dms/Company-Logo_100.png").
  reflexivity.
Defined.

(** * Further properties of the handler *)

Section HandlerShape.

Variable db : supabase.
Variable b : browser.
Variable tg : telegram.

Lemma extract_images_returns url :
  exists out t, extract_images b url = (Ok out, t).
Proof.
  destruct (extract_images b url) as [r t] eqn:H.
  pose proof (extract_images_result b url) as Hr. rewrite H in Hr. simpl in Hr.
  subst r. eauto.
Qed.

(** [process] is the extraction followed by [after_extract]. *)
Lemma process_split user_id today_usage url out t :
  extract_images b url = (Ok out, t) ->
  process db b tg user_id today_usage url
  = (result (after_extract db tg user_id today_usage url out),
     t ++ calls (after_extract db tg user_id today_usage url out)).
Proof.
  intros Hex. unfold process, after_extract. rewrite (bind_ok _ _ _ _ Hex).
  cbv beta.
  destruct (match out with
            | [] => edit_text tg MsgNoImages
            | _ :: _ =>
                do '(success_count, failed_count) <- deliver db tg user_id url out;
                final_message tg today_usage success_count failed_count
            end) as [[[]|e] t1]; simpl; [done|].
  unfold edit_text. simpl. by rewrite <- app_assoc.
Qed.

Lemma deliver_edit_raises user_id url found e :
  tg_edit_text tg (MsgFound (length (take 10 found))) = Some e ->
  deliver db tg user_id url found
  = (Raise e, [EvEditText (MsgFound (length (take 10 found)))]).
Proof. intros H. unfold deliver, edit_text. by rewrite H. Qed.

(** The calls of the handler, branch by branch. *)
Lemma handle_url_calls user text :
  calls (handle_url db b tg user text)
  = calls (get_or_create_user db user)
    ++ match result (get_or_create_user db user) with
       | Ok (Some row) =>
           calls (get_today_usage db (row_id row))
           ++ match result (get_today_usage db (row_id row)) with
              | Ok today_usage =>
                  if (5 <=? today_usage)%nat then [EvReplyText MsgLimitReached]
                  else if negb (PyStr.contains "linkedin.com" (PyStr.strip text))
                  then [EvReplyText MsgInvalidUrl]
                  else EvReplyText MsgProcessing
                       :: match tg_reply_text tg MsgProcessing with
                          | None =>
                              calls (process db b tg (row_id row) today_usage
                                       (PyStr.strip text))
                          | Some _ => []
                          end
              | Raise _ => []
              end
       | Ok None => [EvReplyText MsgUserError]
       | Raise _ => []
       end.
Proof.
  unfold handle_url. rewrite calls_bind. f_equal.
  destruct (result (get_or_create_user db user)) as [[row|]|e]; [|done|done].
  rewrite calls_bind. f_equal.
  destruct (result (get_today_usage db (row_id row))) as [today_usage|e]; [|done].
  destruct (5 <=? today_usage)%nat; [done|].
  destruct (negb _); [done|].
  rewrite calls_bind. unfold reply_text.
  by destruct (tg_reply_text tg MsgProcessing).
Qed.

End HandlerShape.

(** X11. A text without [linkedin.com] in it, from a user under the
    limit, is answered with the invalid-URL text and nothing else: no
    browser call, no delivery, and no entry in the usage log, so it does
    not count against the daily limit. *)
Theorem invalid_url_rejected (db : supabase) (b : browser) (tg : telegram)
    (user : chat_user) (text : string) (db_user : user_row) (t0 tq : trace)
    (today_usage : nat) :
  get_or_create_user db user = (Ok (Some db_user), t0) ->
  get_today_usage db (row_id db_user) = (Ok today_usage, tq) ->
  (today_usage < 5)%nat ->
  PyStr.contains "linkedin.com" (PyStr.strip text) = false ->
  handle_url db b tg user text
  = (match tg_reply_text tg MsgInvalidUrl with
     | None => Ok tt
     | Some e => Raise e
     end,
     t0 ++ tq ++ [EvReplyText MsgInvalidUrl])
  /\ Forall no_extraction (calls (handle_url db b tg user text)).
Proof.
  intros Huser Hq Hlt Hurl.
  assert (handle_url db b tg user text
          = (match tg_reply_text tg MsgInvalidUrl with
             | None => Ok tt
             | Some e => Raise e
             end,
             t0 ++ tq ++ [EvReplyText MsgInvalidUrl])) as Heq.
  { unfold handle_url. rewrite (bind_ok _ _ _ _ Huser). cbv beta iota.
    rewrite (bind_ok _ _ _ _ Hq). cbv beta.
    apply Nat.leb_gt in Hlt. rewrite Hlt, Hurl. unfold reply_text. done. }
  split; [done|]. rewrite Heq. simpl. apply Forall_app. split.
  - pose proof (get_or_create_user_calls db user) as Hc. by rewrite Huser in Hc.
  - apply Forall_app. split; [|by repeat constructor].
    assert (Forall no_extraction (calls (get_today_usage db (row_id db_user))))
      as Hc by (unfold get_today_usage; calls_auto).
    by rewrite Hq in Hc.
Qed.

Lemma invalid_url_rejected_witness :
  handle_url (store_with 2) (healthy_browser [unsized]) chat_ok alice
    "https://example.com/post/1"
  = (Ok tt,
     [EvRpcSetUserContext 1001; EvSelectUser 1001; EvUpdateLastActive 1001]
     ++ [EvSelectUsage 7] ++ [EvReplyText MsgInvalidUrl])
  /\ Forall no_extraction
       (calls (handle_url (store_with 2) (healthy_browser [unsized]) chat_ok
                 alice "https://example.com/post/1")).
Proof.
  apply (invalid_url_rejected (store_with 2) (healthy_browser [unsized]) chat_ok
           alice "https://example.com/post/1" alice_row
           [EvRpcSetUserContext 1001; EvSelectUser 1001; EvUpdateLastActive 1001]
           [EvSelectUsage 7] 2).
  - reflexivity.
  - reflexivity.
  - lia.
  - reflexivity.
Defined.

(** X12. Failures of the store, of the browser and of the sends stay
    inside the handler: when every [reply_text] and [edit_text] of the
    chat returns, [handle_url] returns without raising. *)
Theorem handle_url_contains_failures (db : supabase) (b : browser)
    (tg : telegram) (user : chat_user) (text : string) :
  (forall m, tg_reply_text tg m = None) ->
  (forall m, tg_edit_text tg m = None) ->
  result (handle_url db b tg user text) = Ok tt.
Proof.
  intros Hreply Hedit. unfold handle_url.
  destruct (get_or_create_user_returns db user) as [r Hr].
  rewrite (surjective_M (get_or_create_user db user)), Hr.
  rewrite (bind_ok _ _ _ _ eq_refl). cbv beta.
  unfold reply_text. destruct r as [row|]; [|by rewrite Hreply].
  assert (exists n tq, get_today_usage db (row_id row) = (Ok n, tq))
    as (n & tq & Hq).
  { unfold get_today_usage.
    destruct (usage_select_today db (row_id row)); simpl; eauto. }
  rewrite (bind_ok _ _ _ _ Hq). cbv beta.
  destruct (5 <=? n)%nat; [by rewrite Hreply|].
  destruct (negb _); [by rewrite Hreply|].
  rewrite Hreply. rewrite (bind_ok _ _ tt [EvReplyText MsgProcessing] eq_refl).
  cbv beta. simpl.
  destruct (extract_images_returns b (PyStr.strip text)) as (out & t & Hex).
  rewrite (process_split db b tg (row_id row) n (PyStr.strip text) out t Hex).
  simpl. unfold after_extract.
  destruct out as [|x l].
  - unfold edit_text. by rewrite Hedit.
  - assert (x :: l ≠ []) as Hne by done.
    destruct (deliver_spec db tg (row_id row) (PyStr.strip text) (x :: l) Hne
                (Hedit _)) as [Hres _]. cbv zeta in Hres.
    rewrite (surjective_M (deliver db tg (row_id row) (PyStr.strip text) (x :: l))).
    rewrite Hres. rewrite (bind_ok _ _ _ _ eq_refl). cbv beta iota.
    unfold final_message, reply_text.
    destruct (0 <? _)%nat; by rewrite Hreply.
Qed.

Lemma handle_url_contains_failures_witness :
  result (handle_url store_down (first_script_fails [unsized]) chat_no_photo
            alice post) = Ok tt.
Proof.
  apply (handle_url_contains_failures store_down (first_script_fails [unsized])
           chat_no_photo alice post); reflexivity.
Defined.

Section AfterExtract.

Variable db : supabase.
Variable tg : telegram.

(** What follows an extraction that found images, once the status
    text of the delivery is out: the delivery, the final text, and
    status texts after it. *)
Lemma after_extract_delivered user_id today_usage url out :
  out ≠ [] ->
  tg_edit_text tg (MsgFound (length (take 10 out))) = None ->
  exists post,
    calls (after_extract db tg user_id today_usage url out)
    = calls (deliver db tg user_id url out)
      ++ EvReplyText
           (final_text today_usage
              (count_media tg (length (take 10 out)) 0 (take 10 out) true)
              (count_media tg (length (take 10 out)) 0 (take 10 out) false))
         :: post
    /\ Forall (fun ev => is_status ev = true) post.
Proof.
  intros Hne He. unfold after_extract. destruct out as [|x l]; [done|].
  destruct (deliver_spec db tg user_id url (x :: l) Hne He) as [Hres _].
  cbv zeta in Hres.
  rewrite (bind_ok _ _
             (count_media tg (length (take 10 (x :: l))) 0 (take 10 (x :: l)) true,
              count_media tg (length (take 10 (x :: l))) 0 (take 10 (x :: l)) false)
             (calls (deliver db tg user_id url (x :: l))));
    [|by rewrite (surjective_M (deliver db tg user_id url (x :: l))), Hres].
  cbv beta iota. unfold final_message, final_text, reply_text.
  destruct (0 <? _)%nat;
    match goal with
    | |- context [tg_reply_text tg ?m] => destruct (tg_reply_text tg m)
    end; simpl;
    try (destruct (tg_edit_text tg MsgWentWrong); simpl);
    rewrite <- ?app_assoc; simpl;
    eexists; (split; [reflexivity|]); by repeat constructor.
Qed.

(** In the other cases (no image, or the status text raises) only
    status texts follow the extraction. *)
Lemma after_extract_cases user_id today_usage url out :
  Forall (fun ev => is_status ev = true)
         (calls (after_extract db tg user_id today_usage url out))
  \/ (out ≠ []
      /\ tg_edit_text tg (MsgFound (length (take 10 out))) = None).
Proof.
  destruct out as [|x l].
  - left. unfold after_extract, edit_text.
    destruct (tg_edit_text tg MsgNoImages); simpl;
      [destruct (tg_edit_text tg MsgWentWrong)|]; by repeat constructor.
  - destruct (tg_edit_text tg (MsgFound (length (take 10 (x :: l)))))
      as [e|] eqn:He; [|by right].
    left. unfold after_extract.
    rewrite (deliver_edit_raises db tg user_id url (x :: l) e He).
    unfold edit_text. simpl.
    destruct (tg_edit_text tg MsgWentWrong); by repeat constructor.
Qed.

End AfterExtract.

Lemma filter_status_none (p : event -> bool) (t : trace) :
  (forall ev, is_status ev = true -> p ev = false) ->
  Forall (fun ev => is_status ev = true) t -> List.filter p t = [].
Proof.
  intros Hp Ht. apply filter_none. eapply Forall_impl; [apply Ht|]. apply Hp.
Qed.

(** The usage log is written once by a delivery that reached its loop. *)
Lemma deliver_writes_once (db : supabase) (tg : telegram) user_id url out :
  out ≠ [] -> tg_edit_text tg (MsgFound (length (take 10 out))) = None ->
  List.filter is_usage_write (calls (deliver db tg user_id url out))
  = [EvInsertUsage user_id url
       (count_media tg (length (take 10 out)) 0 (take 10 out) true)].
Proof.
  intros Hne He.
  destruct (deliver_spec db tg user_id url out Hne He) as [_ Hc].
  cbv zeta in Hc. rewrite Hc. simpl. rewrite List.filter_app.
  destruct (send_loop_spec tg (length (take 10 out)) (take 10 out) 0 0 0)
    as (_ & _ & Hu).
  rewrite filter_none by (eapply Forall_impl; [apply Hu|]; simpl; tauto).
  destruct (log_usage_calls db user_id url
              (count_media tg (length (take 10 out)) 0 (take 10 out) true))
    as (t & -> & Ht).
  simpl. f_equal. apply filter_none.
  eapply Forall_impl; [apply Ht|]. by intros ev [w ->].
Qed.

Lemma send_loop_loop_calls (tg : telegram) n images : forall i s f,
  Forall (fun ev => is_loop_call ev = true) (calls (send_loop tg n i images s f)).
Proof.
  induction images as [|x l IH]; intros i s f; [constructor|].
  rewrite send_loop_cons. apply Forall_calls_bind.
  - unfold send_one, send_photo, send_message, sleep. calls_auto.
  - intros [s' f'] _. apply IH.
Qed.

(** The sending loop pauses one second for each image that went through. *)
Lemma send_loop_slept (tg : telegram) n images : forall i s f,
  slept (calls (send_loop tg n i images s f)) = count_media tg n i images true.
Proof.
  induction images as [|x l IH]; intros i s f; [done|].
  rewrite send_loop_cons, slept_bind.
  destruct (send_one_spec tg n i x s f) as (t & Hone & _).
  cbn [count_media]. unfold media_sent, returns_ in *.
  destruct (tg_send_photo tg x (MsgCaption (i + 1) n)) as [e|] eqn:Hp.
  - rewrite (send_one_failed_no_sleep tg n i x s f e Hp).
    rewrite Hone. cbn [result fst]. rewrite IH. simpl. done.
  - rewrite (send_one_sent_sleeps tg n i x s f Hp).
    rewrite Hone. cbn [result fst]. rewrite IH. simpl. done.
Qed.

Lemma deliver_photos (db : supabase) (tg : telegram) user_id url out :
  out ≠ [] -> tg_edit_text tg (MsgFound (length (take 10 out))) = None ->
  List.filter is_send_photo (calls (deliver db tg user_id url out))
  = attempts (length (take 10 out)) 0 (take 10 out).
Proof.
  intros Hne He.
  destruct (deliver_spec db tg user_id url out Hne He) as [_ Hc].
  cbv zeta in Hc. rewrite Hc. simpl. rewrite List.filter_app.
  destruct (send_loop_spec tg (length (take 10 out)) (take 10 out) 0 0 0)
    as (_ & -> & _).
  destruct (log_usage_calls db user_id url
              (count_media tg (length (take 10 out)) 0 (take 10 out) true))
    as (t & -> & Ht).
  simpl. rewrite filter_none; [by rewrite app_nil_r|].
  eapply Forall_impl; [apply Ht|]. by intros ev [w ->].
Qed.

Lemma deliver_slept (db : supabase) (tg : telegram) user_id url out :
  out ≠ [] -> tg_edit_text tg (MsgFound (length (take 10 out))) = None ->
  slept (calls (deliver db tg user_id url out))
  = count_media tg (length (take 10 out)) 0 (take 10 out) true.
Proof.
  intros Hne He.
  destruct (deliver_spec db tg user_id url out Hne He) as [_ Hc].
  cbv zeta in Hc. rewrite Hc. simpl. rewrite slept_app, send_loop_slept.
  destruct (log_usage_calls db user_id url
              (count_media tg (length (take 10 out)) 0 (take 10 out) true))
    as (t & -> & Ht).
  simpl. rewrite (only_log_slept _ Ht). lia.
Qed.

(** The handler either stops before the extraction, having made only
    look-ups and one reply, or runs the extraction for a user under the
    limit and goes on with what follows it. *)
Lemma handle_url_shape (db : supabase) (b : browser) (tg : telegram)
    (user : chat_user) (text : string) :
  Forall (fun ev => is_lookup ev = true) (calls (handle_url db b tg user text))
  \/ exists row today_usage out t0 t,
       (today_usage < 5)%nat
       /\ extract_images b (PyStr.strip text) = (Ok out, t)
       /\ calls (handle_url db b tg user text)
          = t0 ++ t
            ++ calls (after_extract db tg (row_id row) today_usage
                        (PyStr.strip text) out)
       /\ Forall (fun ev => is_lookup ev = true) t0.
Proof.
  rewrite handle_url_calls.
  assert (Forall (fun ev => is_lookup ev = true) (calls (get_or_create_user db user)))
    as Hu by (unfold get_or_create_user, set_user_context; calls_auto).
  destruct (result (get_or_create_user db user)) as [[row|]|e].
  - assert (Forall (fun ev => is_lookup ev = true)
              (calls (get_today_usage db (row_id row))))
      as Hq by (unfold get_today_usage; calls_auto).
    destruct (result (get_today_usage db (row_id row))) as [today_usage|e].
    + destruct (5 <=? today_usage)%nat eqn:Hlim.
      { left. rewrite !Forall_app. by repeat constructor. }
      destruct (negb _).
      { left. rewrite !Forall_app. by repeat constructor. }
      destruct (tg_reply_text tg MsgProcessing).
      { left. rewrite !Forall_app. by repeat constructor. }
      right.
      destruct (extract_images_returns b (PyStr.strip text)) as (out & t & Hex).
      rewrite (process_split db b tg (row_id row) today_usage _ out t Hex). simpl.
      exists row, today_usage, out,
        (calls (get_or_create_user db user)
         ++ calls (get_today_usage db (row_id row)) ++ [EvReplyText MsgProcessing]),
        t.
      split; [by apply Nat.leb_gt|]. split; [done|]. split.
      * rewrite <- !app_assoc. simpl. done.
      * rewrite !Forall_app. by repeat constructor.
    + left. rewrite !Forall_app. by repeat constructor.
  - left. rewrite !Forall_app. by repeat constructor.
  - left. by rewrite app_nil_r.
Qed.

Lemma lookup_not_selected (p : event -> bool) (t : trace) :
  (forall ev, is_lookup ev = true -> p ev = false) ->
  Forall (fun ev => is_lookup ev = true) t -> List.filter p t = [].
Proof.
  intros Hp Ht. apply filter_none. eapply Forall_impl; [apply Ht|]. apply Hp.
Qed.

Lemma count_media_le (tg : telegram) n images sent : forall i,
  (count_media tg n i images sent <= length images)%nat.
Proof.
  induction images as [|x l IH]; intros i; simpl; [done|].
  specialize (IH (S i)). destruct (Bool.eqb _ _); lia.
Qed.

(** The part of the trace of [handle_url] that [p] selects, for a [p]
    that selects no look-up, no call of the scraper and no status text:
    nothing, or what [p] selects from the delivery and the final text. *)
Lemma handle_url_selected (p : event -> bool) (db : supabase) (b : browser)
    (tg : telegram) (user : chat_user) (text : string) :
  (forall ev, is_lookup ev = true -> p ev = false) ->
  (forall ev, is_scraper_call ev = true -> p ev = false) ->
  (forall ev, is_status ev = true -> p ev = false) ->
  List.filter p (calls (handle_url db b tg user text)) = []
  \/ exists row today_usage out,
       (today_usage < 5)%nat
       /\ result (extract_images b (PyStr.strip text)) = Ok out
       /\ out ≠ []
       /\ tg_edit_text tg (MsgFound (length (take 10 out))) = None
       /\ List.filter p (calls (handle_url db b tg user text))
          = List.filter p (calls (deliver db tg (row_id row) (PyStr.strip text) out))
            ++ List.filter p
                 [EvReplyText
                    (final_text today_usage
                       (count_media tg (length (take 10 out)) 0 (take 10 out) true)
                       (count_media tg (length (take 10 out)) 0 (take 10 out) false))].
Proof.
  intros Hlook Hscr Hstat.
  destruct (handle_url_shape db b tg user text)
    as [Hall|(row & today_usage & out & t0 & t & Hlt & Hex & Hcalls & Ht0)].
  { left. by apply lookup_not_selected. }
  assert (List.filter p t = []) as Ht.
  { apply filter_none. pose proof (extract_images_calls b (PyStr.strip text)) as Hc.
    rewrite Hex in Hc. simpl in Hc. eapply Forall_impl; [apply Hc|]. apply Hscr. }
  rewrite Hcalls, !List.filter_app, (lookup_not_selected p t0 Hlook Ht0), Ht. simpl.
  destruct (after_extract_cases db tg (row_id row) today_usage (PyStr.strip text) out)
    as [Hst|[Hne He]].
  { left. by apply filter_status_none. }
  right. exists row, today_usage, out.
  split; [done|]. split; [by rewrite Hex|]. split; [done|]. split; [done|].
  destruct (after_extract_delivered db tg (row_id row) today_usage
              (PyStr.strip text) out Hne He) as (post & -> & Hpost).
  rewrite List.filter_app. f_equal.
  change (?x :: post) with ([x] ++ post).
  rewrite List.filter_app, (filter_status_none p post Hstat Hpost).
  by rewrite app_nil_r.
Qed.

(** X13. One request writes the usage log at most once, and what it
    writes is an entry for the text of the request without the blanks
    around it, with a count of at most 10. *)
Theorem usage_written_at_most_once (db : supabase) (b : browser) (tg : telegram)
    (user : chat_user) (text : string) :
  List.filter is_usage_write (calls (handle_url db b tg user text)) = []
  \/ exists user_id n,
       List.filter is_usage_write (calls (handle_url db b tg user text))
       = [EvInsertUsage user_id (PyStr.strip text) n]
       /\ (n <= 10)%nat.
Proof.
  destruct (handle_url_selected is_usage_write db b tg user text)
    as [Hnone|(row & today_usage & out & _ & _ & Hne & He & ->)];
    try (by intros []); [by left|].
  right. rewrite (deliver_writes_once db tg _ _ out Hne He). simpl.
  exists (row_id row),
    (count_media tg (length (take 10 out)) 0 (take 10 out) true).
  split; [done|].
  etransitivity; [apply count_media_le|]. rewrite length_take. lia.
Qed.

Lemma photos_sent_filter (t : trace) :
  photos_sent (List.filter is_send_photo t) = photos_sent t.
Proof. induction t as [|ev t IH]; [done|]. destruct ev; simpl; by rewrite ?IH. Qed.

Lemma photos_sent_attempts n images : forall i,
  photos_sent (attempts n i images) = images.
Proof. induction images as [|x l IH]; intros i; simpl; [done|]. by rewrite IH. Qed.

(** X14. The photos one request sends are the first 10 URLs the
    extraction returned, in that order, or none at all: never more than
    10, and never the same URL twice. *)
Theorem photos_sent_are_first_ten (db : supabase) (b : browser) (tg : telegram)
    (user : chat_user) (text : string) :
  exists out,
    result (extract_images b (PyStr.strip text)) = Ok out
    /\ (photos_sent (calls (handle_url db b tg user text)) = []
        \/ photos_sent (calls (handle_url db b tg user text)) = take 10 out)
    /\ (length (photos_sent (calls (handle_url db b tg user text))) <= 10)%nat
    /\ NoDup (photos_sent (calls (handle_url db b tg user text))).
Proof.
  destruct (extract_images_returns b (PyStr.strip text)) as (out & t & Hex).
  exists out. split; [by rewrite Hex|].
  assert (NoDup out) as Hnd.
  { pose proof (extract_images_result b (PyStr.strip text)) as Hr.
    rewrite Hex in Hr. simpl in Hr. injection Hr as ->.
    destruct (result (session b (PyStr.strip text)));
      [apply NoDup_dedup_loop|constructor]. }
  rewrite <- photos_sent_filter.
  destruct (handle_url_selected is_send_photo db b tg user text)
    as [->|(row & today_usage & out' & _ & Hout & Hne & He & ->)];
    try (by intros []).
  { simpl. split; [by left|]. split; [lia|constructor]. }
  rewrite Hex in Hout. simpl in Hout. injection Hout as <-.
  rewrite (deliver_photos db tg _ _ out Hne He). simpl. rewrite app_nil_r.
  rewrite photos_sent_attempts. split; [by right|]. split.
  - rewrite length_take. lia.
  - eapply sublist_NoDup; [done|apply sublist_take].
Qed.

(** X15. Whenever the handler reports a completed download, the number
    of downloads it reports as left is between 0 and 4, at least one
    image was sent, and the two counts it reports add up to at most 10. *)
Theorem reported_counts_in_range (db : supabase) (b : browser) (tg : telegram)
    (user : chat_user) (text : string) (s f : nat) (r : Z) :
  EvReplyText (MsgDone s f r) ∈ calls (handle_url db b tg user text) ->
  (0 <= r <= 4)%Z /\ (0 < s)%nat /\ (s + f <= 10)%nat.
Proof.
  intros Hin.
  assert (In (EvReplyText (MsgDone s f r))
            (List.filter is_done_reply (calls (handle_url db b tg user text))))
    as Hf by (apply List.filter_In; split; [by apply list_elem_of_In|done]).
  destruct (handle_url_selected is_done_reply db b tg user text)
    as [Hnone|(row & today_usage & out & Hlt & _ & Hne & He & Heq)];
    try (by intros []).
  { intros ev. destruct ev as [| | | | | | | | | | | | |m| | | |]; try done.
    by destruct m. }
  { by rewrite Hnone in Hf. }
  rewrite Heq in Hf. apply List.in_app_or in Hf as [Hf|Hf].
  - apply List.filter_In in Hf as [Hf _].
    destruct (deliver_spec db tg (row_id row) (PyStr.strip text) out Hne He)
      as [_ Hc]. cbv zeta in Hc. rewrite Hc in Hf.
    destruct Hf as [Hf|Hf]; [discriminate Hf|].
    apply List.in_app_or in Hf as [Hf|Hf].
    + pose proof (send_loop_loop_calls tg (length (take 10 out)) (take 10 out) 0 0 0)
        as Hl.
      apply list_elem_of_In in Hf. rewrite Forall_forall in Hl.
      by apply Hl in Hf.
    + destruct (log_usage_calls db (row_id row) (PyStr.strip text)
                  (count_media tg (length (take 10 out)) 0 (take 10 out) true))
        as (t & Ht & Hlog).
      rewrite Ht in Hf. destruct Hf as [Hf|Hf]; [discriminate Hf|].
      apply list_elem_of_In in Hf. rewrite Forall_forall in Hlog.
      by destruct (Hlog _ Hf).
  - pose proof (count_media_total tg (length (take 10 out)) (take 10 out) 0) as Htot.
    assert (length (take 10 out) <= 10)%nat as Hlen by (rewrite length_take; lia).
    unfold final_text in Hf.
    destruct (0 <? _)%nat eqn:Hpos; simpl in Hf; [|by destruct Hf].
    destruct Hf as [Hf|[]]. injection Hf as <- <- <-.
    apply Nat.ltb_lt in Hpos. lia.
Qed.

Lemma reported_counts_in_range_witness :
  EvReplyText (MsgDone 1 0 4)
    ∈ calls (handle_url store_usage_query_down (healthy_browser [unsized]) chat_ok
               alice post)
  /\ ((0 <= 4 <= 4)%Z /\ (0 < 1)%nat /\ (1 + 0 <= 10)%nat).
Proof.
  assert (EvReplyText (MsgDone 1 0 4)
            ∈ calls (handle_url store_usage_query_down (healthy_browser [unsized])
                       chat_ok alice post)) as Hin
    by (apply list_elem_of_In; vm_compute; tauto).
  split; [exact Hin|].
  exact (reported_counts_in_range store_usage_query_down
           (healthy_browser [unsized]) chat_ok alice post 1 0 4 Hin).
Defined.

Lemma count_media_none_sent (tg : telegram) n images :
  (forall photo caption, tg_send_photo tg photo caption <> None) ->
  forall i, count_media tg n i images true = 0%nat.
Proof.
  intros Hfail. induction images as [|x l IH]; intros i; simpl; [done|].
  rewrite IH. unfold media_sent, returns_.
  pose proof (Hfail x (MsgCaption (i + 1) n)) as Hx.
  by destruct (tg_send_photo tg x (MsgCaption (i + 1) n)).
Qed.

(** X16. A request for which every media send fails is still entered
    in the usage log, with the count 0, and so uses up one of the
    downloads of the day; its final text is the one for a delivery that
    sent nothing. *)
Theorem failed_delivery_still_logged (db : supabase) (b : browser)
    (tg : telegram) (user_id : Z) (today_usage : nat) (url : string)
    (out : list string) (t : trace) :
  extract_images b url = (Ok out, t) ->
  out ≠ [] ->
  tg_edit_text tg (MsgFound (length (take 10 out))) = None ->
  (forall photo caption, tg_send_photo tg photo caption <> None) ->
  List.filter is_usage_write (calls (process db b tg user_id today_usage url))
  = [EvInsertUsage user_id url 0]
  /\ EvReplyText MsgAllFailed ∈ calls (process db b tg user_id today_usage url)
  /\ List.filter is_done_reply (calls (process db b tg user_id today_usage url))
     = [].
Proof.
  intros Hex Hne He Hfail.
  rewrite (process_split db b tg user_id today_usage url out t Hex). simpl.
  destruct (after_extract_delivered db tg user_id today_usage url out Hne He)
    as (post & -> & Hpost).
  rewrite (count_media_none_sent tg _ _ Hfail).
  pose proof (extract_images_calls b url) as Hc. rewrite Hex in Hc. simpl in Hc.
  assert (forall p, (forall ev, is_scraper_call ev = true -> p ev = false) ->
                    List.filter p t = []) as Hnone.
  { intros p Hp. apply filter_none. eapply Forall_impl; [apply Hc|]. apply Hp. }
  unfold final_text. simpl. split; [|split].
  - rewrite !List.filter_app, Hnone by (by intros []). simpl.
    rewrite (deliver_writes_once db tg user_id url out Hne He).
    rewrite (count_media_none_sent tg _ _ Hfail).
    rewrite (filter_status_none is_usage_write post) by (done || by intros []).
    done.
  - rewrite !elem_of_app, elem_of_cons. right. right. by left.
  - rewrite !List.filter_app, Hnone by (by intros []). simpl.
    rewrite (filter_status_none is_done_reply post) by (done || by intros []).
    rewrite app_nil_r. apply filter_none.
    destruct (deliver_spec db tg user_id url out Hne He) as [_ ->].
    constructor; [done|]. apply Forall_app. split.
    + eapply Forall_impl; [apply send_loop_loop_calls|]. by intros [].
    + destruct (log_usage_calls db user_id url
                  (count_media tg (length (take 10 out)) 0 (take 10 out) true))
        as (tl & -> & Hl).
      constructor; [done|]. eapply Forall_impl; [apply Hl|]. by intros ev [w ->].
Qed.

Lemma failed_delivery_still_logged_witness :
  List.filter is_usage_write
    (calls (process (store_with 0) (healthy_browser [unsized]) chat_no_photo 7 0 post))
  = [EvInsertUsage 7 post 0]
  /\ EvReplyText MsgAllFailed
       ∈ calls (process (store_with 0) (healthy_browser [unsized]) chat_no_photo
                  7 0 post)
  /\ List.filter is_done_reply
       (calls (process (store_with 0) (healthy_browser [unsized]) chat_no_photo
                 7 0 post))
     = [].
Proof.
  eapply (failed_delivery_still_logged (store_with 0) (healthy_browser [unsized])
            chat_no_photo 7 0 post [photo_b]).
  - vm_compute. reflexivity.
  - discriminate.
  - reflexivity.
  - intros photo caption. discriminate.
Defined.

(** X17. One request keeps the handler in [time.sleep] for at most 24
    seconds: at most 14 in the extraction, and one for each image that
    was sent. *)
Theorem request_pauses (db : supabase) (b : browser) (tg : telegram)
    (user : chat_user) (text : string) :
  (slept (calls (handle_url db b tg user text)) <= 24)%nat.
Proof.
  assert (forall t, Forall (fun ev => is_lookup ev = true) t -> slept t = 0%nat)
    as Hlook.
  { induction 1 as [|ev t Hev _ IH]; [done|]. by destruct ev. }
  assert (forall t, Forall (fun ev => is_status ev = true) t -> slept t = 0%nat)
    as Hstat.
  { induction 1 as [|ev t Hev _ IH]; [done|]. by destruct ev. }
  destruct (handle_url_shape db b tg user text)
    as [Hall|(row & today_usage & out & t0 & t & _ & Hex & -> & Ht0)].
  { rewrite (Hlook _ Hall). lia. }
  rewrite !slept_app, (Hlook _ Ht0).
  pose proof (extraction_pauses_bound b (PyStr.strip text)) as Hb.
  rewrite Hex in Hb. simpl in Hb.
  destruct (after_extract_cases db tg (row_id row) today_usage (PyStr.strip text) out)
    as [Hst|[Hne He]].
  { rewrite (Hstat _ Hst). lia. }
  destruct (after_extract_delivered db tg (row_id row) today_usage
              (PyStr.strip text) out Hne He) as (post & -> & Hpost).
  rewrite slept_app. simpl. rewrite (Hstat _ Hpost).
  rewrite (deliver_slept db tg (row_id row) (PyStr.strip text) out Hne He).
  pose proof (count_media_le tg (length (take 10 out)) (take 10 out) true 0) as Hle.
  assert (length (take 10 out) <= 10)%nat as Hlen by (rewrite length_take; lia).
  lia.
Qed.

(** * The menu handlers and the dispatcher *)

Lemma lift_returns {A} (m : M A) (a : A) (t : trace) :
  m = (Ok a, t) -> lift m = (UOk a, map UiCore t).
Proof. by intros ->. Qed.

Lemma ubind_ok {A B} (m : U A) (k : A -> U B) a t :
  m = (UOk a, t) -> ubind m k = (uresult (k a), t ++ ucalls (k a)).
Proof. intros ->. unfold ubind. by destruct (k a). Qed.

Lemma core_calls_app (t1 t2 : list ui_event) :
  core_calls (t1 ++ t2) = core_calls t1 ++ core_calls t2.
Proof.
  induction t1 as [|ev t1 IH]; [done|]. destruct ev; simpl; by rewrite ?IH.
Qed.

Lemma core_calls_lift (t : trace) : core_calls (map UiCore t) = t.
Proof. induction t as [|ev t IH]; simpl; [done|]. by rewrite IH. Qed.

Lemma menu_text_lift (t : trace) :
  List.filter is_menu_text (map UiCore t) = [].
Proof. induction t as [|ev t IH]; simpl; done. Qed.

Lemma get_or_create_user_pair (db : supabase) (u : chat_user) :
  exists r, get_or_create_user db u = (Ok r, calls (get_or_create_user db u)).
Proof.
  destruct (get_or_create_user_returns db u) as [r Hr]. exists r.
  by rewrite (surjective_M (get_or_create_user db u)), Hr.
Qed.

Lemma re_match_word_inv (word data : string) :
  re_match_word word data = true -> data = word \/ data = word +:+ nl.
Proof.
  unfold re_match_word. rewrite orb_true_iff, !String.eqb_eq. tauto.
Qed.

(** X18. The Help button does not show the help: [help_command] is
    registered for the button too, and replies through
    [update.message], which a press on a button does not have.  For
    every press whose data matches [^help$], nothing is sent and the
    error handler logs the exception. *)
Theorem help_button_sends_nothing (db : supabase) (b : browser) (tg : telegram)
    (mc : menu_chat) (user : chat_user) (data : string) :
  re_match_word "help" data = true ->
  dispatch db b tg mc (CallbackQuery user data)
  = (UOk tt, [UiLogError "Update caused error"]).
Proof.
  intros [-> | ->]%re_match_word_inv; reflexivity.
Qed.

Lemma help_button_sends_nothing_witness :
  dispatch (store_with 0) (healthy_browser []) chat_ok menu_ok
    (CallbackQuery alice (callback_data BtnHelp))
  = (UOk tt, [UiLogError "Update caused error"]).
Proof.
  apply (help_button_sends_nothing (store_with 0) (healthy_browser []) chat_ok
           menu_ok alice (callback_data BtnHelp)).
  reflexivity.
Defined.

(** The command [/help] does show it. *)
Example help_command_replies :
  dispatch (store_with 0) (healthy_browser []) chat_ok menu_ok
    (Message alice "/help" (Some "help"))
  = (UOk tt, [UiReplyMenu TxtHelp []]).
Proof. reflexivity. Qed.

(** X19. [start] sends the welcome text with its two buttons whatever
    the store does: the look-up of the user is made first, what it
    returns is not used, and a store that raises does not stop the
    reply. *)
Theorem start_welcomes_always (db : supabase) (mc : menu_chat)
    (user : chat_user) (text : string) (command : option string) :
  start db mc (Message user text command)
  = (match mc_reply_text mc TxtWelcome with
     | None => UOk tt
     | Some e => URaise (LibError e)
     end,
     map UiCore (calls (get_or_create_user db user))
     ++ [UiReplyMenu TxtWelcome main_keyboard]).
Proof.
  unfold start. simpl effective_user.
  destruct (get_or_create_user_pair db user) as [r Hr].
  rewrite (ubind_ok _ _ _ _ (lift_returns _ _ _ Hr)). cbv beta.
  unfold message_reply_text, ucall. done.
Qed.

Lemma get_or_create_user_no_usage_query (db : supabase) (u : chat_user) :
  Forall (fun ev => forall user_id, ev <> EvSelectUsage user_id)
         (calls (get_or_create_user db u)).
Proof. unfold get_or_create_user, set_user_context. calls_auto. Qed.

Ltac destruct_edit mc :=
  match goal with
  | |- context [mc_edit_message_text mc ?x] =>
      destruct (mc_edit_message_text mc x)
  end.

(** X20. The stats button, once the press is answered: when the row of
    the user is obtained, the text shows the number [get_today_usage]
    returns (0 when its query raises); when it is not, the text is the
    error text and the usage is not queried.  In no case is the browser
    started, an image sent or the usage log written. *)
Theorem stats_shows_today_usage (db : supabase) (mc : menu_chat)
    (user : chat_user) (data : string) :
  mc_answer mc = None ->
  (forall row,
      result (get_or_create_user db (id_only user)) = Ok (Some row) ->
      exists n t,
        get_today_usage db (row_id row) = (Ok n, t)
        /\ (forall e, usage_select_today db (row_id row) = Raise e -> n = 0%nat)
        /\ List.filter is_menu_text (ucalls (stats_callback db mc (CallbackQuery user data)))
           = [UiEditMenu
                (TxtStats (tg_id user) (or_empty (tg_first_name user))
                   (or_empty (tg_last_name user)) (joined_on row) n)
                back_keyboard])
  /\ (result (get_or_create_user db (id_only user)) = Ok None ->
      List.filter is_menu_text (ucalls (stats_callback db mc (CallbackQuery user data)))
      = [UiEditMenu TxtStatsError back_keyboard]
      /\ forall user_id,
           EvSelectUsage user_id
             ∉ core_calls (ucalls (stats_callback db mc (CallbackQuery user data))))
  /\ Forall no_extraction
       (core_calls (ucalls (stats_callback db mc (CallbackQuery user data)))).
Proof.
  intros Hans. unfold stats_callback. rewrite Hans.
  rewrite (ubind_ok _ _ tt [UiAnswer] eq_refl). cbv beta.
  destruct (get_or_create_user_pair db (id_only user)) as [r Hr].
  pose proof (get_or_create_user_calls db (id_only user)) as Hcalls.
  set (tu := calls (get_or_create_user db (id_only user))) in *.
  rewrite (ubind_ok _ _ _ _ (lift_returns _ _ _ Hr)). cbv beta.
  rewrite Hr. simpl result.
  assert (forall row, exists n t,
            get_today_usage db (row_id row) = (Ok n, t)
            /\ (forall e, usage_select_today db (row_id row) = Raise e -> n = 0%nat)
            /\ Forall no_extraction t) as Hq.
  { intros row. unfold get_today_usage.
    destruct (usage_select_today db (row_id row)) as [rows|e]; simpl.
    - eexists _, _. split; [done|]. split; [done|]. by repeat constructor.
    - eexists _, _. split; [done|]. split; [done|]. by repeat constructor. }
  split; [|split].
  - intros row [= ->]. destruct (Hq row) as (n & t & Hn & Hzero & _).
    exists n, t. split; [done|]. split; [done|].
    rewrite (lift_returns _ _ _ Hn). unfold ucall.
    simpl; try destruct_edit mc; simpl;
      rewrite !List.filter_app, !menu_text_lift; done.
  - intros [= ->]. simpl.
    assert (forall user_id, EvSelectUsage user_id ∉ tu) as Hno.
    { intros user_id Hin.
      pose proof (get_or_create_user_no_usage_query db (id_only user)) as Hf.
      rewrite Forall_forall in Hf. by apply (Hf _ Hin user_id). }
    split.
    + unfold ucall. simpl; try destruct_edit mc; simpl;
        rewrite !List.filter_app, !menu_text_lift; done.
    + intros user_id. unfold ucall.
      simpl; try destruct_edit mc; simpl;
        rewrite core_calls_app, core_calls_lift; simpl; rewrite app_nil_r;
        apply Hno.
  - destruct r as [row|].
    + destruct (Hq row) as (n & t & Hn & _ & Ht).
      rewrite (lift_returns _ _ _ Hn). unfold ucall.
      simpl; try destruct_edit mc; simpl;
        rewrite !core_calls_app, !core_calls_lift, !Forall_app; simpl;
        by repeat split.
    + unfold ucall. simpl; try destruct_edit mc; simpl;
        rewrite !core_calls_app, !core_calls_lift, !Forall_app; simpl;
        by repeat split.
Qed.

Lemma stats_shows_today_usage_witness :
  List.filter is_menu_text
    (ucalls (stats_callback store_usage_query_down menu_ok
               (CallbackQuery alice "stats")))
  = [UiEditMenu (TxtStats 1001 "Alice" EmptyString "2024-05-01" 0) back_keyboard]
  /\ List.filter is_menu_text
       (ucalls (stats_callback store_down menu_ok (CallbackQuery alice "stats")))
     = [UiEditMenu TxtStatsError back_keyboard].
Proof.
  split.
  - destruct (proj1 (stats_shows_today_usage store_usage_query_down menu_ok alice
                       "stats" eq_refl) alice_row eq_refl)
      as (n & t & Hn & Hzero & Htext).
    rewrite Htext. rewrite (Hzero APIError eq_refl). reflexivity.
  - apply (proj1 (proj2 (stats_shows_today_usage store_down menu_ok alice
                           "stats" eq_refl))).
    reflexivity.
Defined.

(** An update that no handler is registered for leaves no trace:
    a command other than [start] and [help], and a press on a button
    whose data matches none of the three patterns. *)
Lemma unrouted_updates_ignored (db : supabase) (b : browser) (tg : telegram)
    (mc : menu_chat) (user : chat_user) :
  (forall text command,
      PyStr.lower command <> "start" -> PyStr.lower command <> "help" ->
      dispatch db b tg mc (Message user text (Some command)) = (UOk tt, []))
  /\ (forall data,
        re_match_word "stats" data = false ->
        re_match_word "back_to_main" data = false ->
        re_match_word "help" data = false ->
        dispatch db b tg mc (CallbackQuery user data) = (UOk tt, [])).
Proof.
  split.
  - intros text command Hs Hh. unfold dispatch, route.
    apply String.eqb_neq in Hs, Hh. by rewrite Hs, Hh.
  - intros data Hs Hb Hh. unfold dispatch, route. by rewrite Hs, Hb, Hh.
Qed.

Lemma unrouted_updates_ignored_example :
  dispatch (store_with 0) (healthy_browser []) chat_ok menu_ok
    (Message alice "/stats" (Some "stats")) = (UOk tt, [])
  /\ dispatch (store_with 0) (healthy_browser []) chat_ok menu_ok
       (CallbackQuery alice "premium") = (UOk tt, []).
Proof.
  split.
  - apply (proj1 (unrouted_updates_ignored (store_with 0) (healthy_browser [])
                    chat_ok menu_ok alice)); discriminate.
  - apply (proj2 (unrouted_updates_ignored (store_with 0) (healthy_browser [])
                    chat_ok menu_ok alice)); reflexivity.
Defined.

(** X21. A text that is not a command goes to [handle_url]: the calls
    of the dispatcher on the store, the browser and the chat are those
    of [handle_url], no menu text is sent, and an exception that leaves
    [handle_url] ends in the log of the error handler, the dispatcher
    itself returning. *)
Theorem text_goes_to_handle_url (db : supabase) (b : browser) (tg : telegram)
    (mc : menu_chat) (user : chat_user) (text : string) :
  core_calls (ucalls (dispatch db b tg mc (Message user text None)))
  = calls (handle_url db b tg user text)
  /\ uresult (dispatch db b tg mc (Message user text None)) = UOk tt
  /\ List.filter is_menu_text (ucalls (dispatch db b tg mc (Message user text None)))
     = []
  /\ (UiLogError "Update caused error"
        ∈ ucalls (dispatch db b tg mc (Message user text None))
      <-> exists e, result (handle_url db b tg user text) = Raise e).
Proof.
  unfold dispatch, route, lift, utry, error_handler, uemit.
  destruct (handle_url db b tg user text) as [[[]|e] t]; simpl.
  - rewrite core_calls_lift, menu_text_lift. repeat split; try done.
    + intros Hin. apply list_elem_of_fmap in Hin as (ev & Hev & _). done.
    + by intros [e He].
  - rewrite core_calls_app, core_calls_lift, List.filter_app, menu_text_lift.
    simpl. rewrite app_nil_r. repeat split; try done.
    + by eauto.
    + intros _. rewrite elem_of_app, elem_of_cons. right. by left.
Qed.

(** X22. Without a token in the environment ([None], or the empty
    string) [main] probes the store, logs the error and returns: no
    updater is made and polling never starts.  A probe that raises does
    not stop [main] either. *)
Theorem main_needs_token (probe : option exn) (token : option string)
    (updater : string -> option exn) :
  token = None \/ token = Some EmptyString ->
  main probe token updater
  = (UOk tt,
     ucalls (init_db probe)
     ++ [UiLogError "TELEGRAM_TOKEN not found in environment variables!"])
  /\ UiStartPolling ∉ ucalls (main probe token updater)
  /\ forall tok, UiUpdater tok ∉ ucalls (main probe token updater).
Proof.
  intros Htoken.
  assert (main probe token updater
          = (UOk tt,
             ucalls (init_db probe)
             ++ [UiLogError "TELEGRAM_TOKEN not found in environment variables!"]))
    as Heq.
  { unfold main, init_db. destruct Htoken as [-> | ->], probe; reflexivity. }
  split; [done|]. rewrite Heq. unfold init_db.
  destruct probe; simpl; (split; [|intros tok]);
    rewrite !elem_of_cons, !elem_of_nil; intros H;
    decompose [or] H; done.
Qed.

Lemma main_needs_token_witness :
  main (Some APIError) None (fun _ => None)
  = (UOk tt,
     ucalls (init_db (Some APIError))
     ++ [UiLogError "TELEGRAM_TOKEN not found in environment variables!"])
  /\ UiStartPolling ∉ ucalls (main (Some APIError) None (fun _ => None))
  /\ forall tok, UiUpdater tok ∉ ucalls (main (Some APIError) None (fun _ => None)).
Proof.
  apply (main_needs_token (Some APIError) None (fun _ => None)). by left.
Defined.
